(** * pdf_splitter: outline resolution and section splitting

    A shallow embedding of [src/split_by_section.py] (class
    [PDFChapterSplitter]) and proofs about it.

    Modelling choices, all read off the source:
    - a Python [str] is the list of its code points ([N]); ASCII literals are
      written with [lit];
    - page indices are Python ints ([Z]);
    - a PDF object (a page object, the first item of a destination array) is
      an opaque token compared with [==]; the document has one page list,
      seen with the same length by pikepdf ([pdf.pages]) and by PyPDF2
      ([reader.pages]);
    - an exception raised inside a [try ... except Exception] block that only
      logs it is modelled as [None]; the exceptions that leave [split_pdf]
      are values of [exn];
    - the environment is a [Host]: which paths exist and what they hold,
      which paths can be opened for writing, and the path and case functions
      of the standard library; creating the output directory succeeds, and
      PyPDF2 opens what pikepdf opened;
    - iteration over a Python [set] follows the hashes of its elements,
      which for tuples holding [str] change from one interpreter process to
      the next: a run carries a [SetOrder];
    - effects are a trace of [event]s: directory creation, files written and
      the lines printed unconditionally.  The debug-only lines of
      [_debug_print] are left out of the trace. *)

From Stdlib Require Import ZArith NArith String Ascii.
From stdpp Require Import gmap list sorting pretty.

Local Open Scope Z_scope.
#[local] Set Warnings "-clear-no-such-hyp".

(** ** Python strings *)

Abbreviation str := (list N).

(** An ASCII literal as a Python string. *)
Definition lit (s : string) : str :=
  (λ a, N_of_ascii a) <$> list_ascii_of_string s.

(** [str(n)] for an int. *)
Definition str_of_int (n : Z) : str := lit (pretty n).

(** [c.isspace()]: the code points [str.strip()] removes. *)
Definition isspace (c : N) : bool :=
  ((9 <=? c) && (c <=? 13) || (28 <=? c) && (c <=? 32)
   || (c =? 133) || (c =? 160) || (c =? 5760)
   || (8192 <=? c) && (c <=? 8202) || (c =? 8232) || (c =? 8233)
   || (c =? 8239) || (c =? 8287) || (c =? 12288))%N.

(** [s.lstrip(...)] and [s.rstrip(...)] for the characters satisfying [p]:
    the first drops them from the left up to the first other character; the
    second, folding from the right, keeps a character once one to its right
    is kept or it does not satisfy [p]. *)
Fixpoint lstrip_by (p : N → bool) (s : str) : str :=
  match s with
  | [] => []
  | c :: s' => if p c then lstrip_by p s' else s
  end.

Definition rstrip_by (p : N → bool) (s : str) : str :=
  foldr (λ c acc, match acc with
                  | [] => if p c then [] else [c]
                  | _ :: _ => c :: acc
                  end) [] s.

(** [s.strip()] *)
Definition strip (s : str) : str := rstrip_by isspace (lstrip_by isspace s).

(** The full stop, ['.']. *)
Definition dot : N := 46%N.

(** [s.zfill(width)]: pad with ['0'] on the left, after a leading sign. *)
Definition zfill (width : nat) (s : str) : str :=
  let pad := replicate (width - length s) 48%N in
  match s with
  | c :: s' => if ((c =? 43) || (c =? 45))%N then c :: pad ++ s' else pad ++ s
  | [] => pad
  end.

(** ** Python lists *)

(** [l[i]] with Python's negative indices; [None] is [IndexError]. *)
Definition py_getitem {A} (l : list A) (i : Z) : option A :=
  let n := Z.of_nat (length l) in
  if decide (0 ≤ i) then l !! Z.to_nat i
  else if decide (- n ≤ i) then l !! Z.to_nat (n + i)
  else None.

(** [range(a, b)] *)
Definition py_range (a b : Z) : list Z := seqZ a (b - a).

(** [sorted(l, key=key)]: Python's sort is stable, so the result is the one
    stable ordering of [l] by [key]; insertion from the right computes it. *)
Fixpoint insert_by {A} (key : A → Z) (x : A) (l : list A) : list A :=
  match l with
  | [] => [x]
  | y :: l' => if decide (key x ≤ key y) then x :: l else y :: insert_by key x l'
  end.

Definition sorted {A} (key : A → Z) (l : list A) : list A :=
  foldr (insert_by key) [] l.

(** ** The document *)

(** A PDF object, compared by [==]. *)
Abbreviation Obj := N.

(** A section: the tuple [(title, page)] of the source. *)
Abbreviation Sec := (str * Z)%type.

(** What [outline.destination] can hold when it is not [None]: an array, on
    which [len] and [[0]] work, or another object (a named destination),
    on which [len(dest)] raises. *)
Inductive Dest :=
| DestArray (items : list Obj)
| DestOther.

(** An outline item.  Each attribute is probed with [hasattr]: [None] is an
    absent attribute; [destination = Some None] is the attribute holding
    Python's [None]. *)
#[local] Unset Elimination Schemes.
Inductive Outline :=
| OutlineItem (title : option str)
              (destination : option (option Dest))
              (children : option (list Outline)).
#[local] Set Elimination Schemes.

Record Pdf := {
  pages : list Obj;
  outline_root : option (list Outline);
}.

(** What a path holds: a document the libraries can open, or anything else. *)
Inductive File :=
| PdfFile (pdf : Pdf)
| NotAPdf (why : str).

(** ** The outline resolver: [_extract_outline] *)

(** Lines 59-70: the part of one iteration that looks at the destination.
    [None]: an exception was raised; [Some l]: what was appended. *)
Definition resolve_destination (pdf_pages : list Obj) (title : str)
    (destination : option (option Dest)) : option (list Sec) :=
  match destination with
  | None => Some []
  | Some None => Some []
  | Some (Some DestOther) => None
  | Some (Some (DestArray [])) => Some []
  | Some (Some (DestArray (page_obj :: _))) =>
      match list_find (λ page, page = page_obj) pdf_pages with
      | Some (i, _) => Some [(title, Z.of_nat i)]
      | None => Some []
      end
  end.

(** Lines 51-74, one iteration of the loop over [outlines], and lines
    47-79, the loop inside its [try]: an exception in an iteration leaves
    the loop, and what was appended before is returned. *)
Fixpoint process_outline (pdf_pages : list Obj) (outline : Outline)
    : option (list Sec) :=
  match outline with
  | OutlineItem None _ _ => Some []
  | OutlineItem (Some title) destination children =>
      match resolve_destination pdf_pages title destination with
      | None => None
      | Some found =>
          Some (found ++
                match children with
                | None => []
                | Some cs =>
                    (fix loop (outlines : list Outline) : list Sec :=
                       match outlines with
                       | [] => []
                       | o :: rest =>
                           match process_outline pdf_pages o with
                           | None => []
                           | Some secs => secs ++ loop rest
                           end
                       end) cs
                end)
      end
  end.

Fixpoint process_outlines (pdf_pages : list Obj) (outlines : list Outline)
    : list Sec :=
  match outlines with
  | [] => []
  | o :: rest =>
      match process_outline pdf_pages o with
      | None => []
      | Some secs => secs ++ process_outlines pdf_pages rest
      end
  end.

(** Lines 81-94. *)
Definition _extract_outline (file : File) : list Sec :=
  match file with
  | NotAPdf _ => []
  | PdfFile pdf =>
      match outline_root pdf with
      | None => []
      | Some root => process_outlines (pages pdf) root
      end
  end.

(** ** [_sanitize_filename] *)

(** The nine characters of [invalid_chars], line 98, by code point:
    less-than, greater-than, colon, double quote, slash, backslash, vertical
    bar, question mark, asterisk. *)
Definition invalid_chars : str :=
  [60; 62; 58; 34; 47; 92; 124; 63; 42]%N.

Definition _sanitize_filename (title : str) : str :=
  let filename := filter (λ c, c ∉ invalid_chars) title in
  let filename := rstrip_by (λ c, bool_decide (c = dot)) (take 50 (strip filename)) in
  match filename with
  | [] => lit "section"
  | _ :: _ => filename
  end.

(** What line 100 leaves of the title when nothing is substituted. *)
Definition stripped_title (title : str) : str :=
  rstrip_by (λ c, bool_decide (c = dot))
    (take 50 (strip (filter (λ c, c ∉ invalid_chars) title))).

(** ** The section splitter: [split_pdf] *)

(** The environment of a run: what each path holds ([None]: the path does
    not exist), whether a path can be opened for writing, and the functions
    [os.path.join], [os.path.normpath] and [str.lower], taken as given.
    Creating the output directory succeeds. *)
Record Host := {
  fs : str → option File;
  open_wb_ok : str → bool;
  path_join : str → str → str;
  normpath : str → str;
  lower : str → str;
}.

(** The order in which a run iterates over a set. *)
Record SetOrder := {
  set_iter : gset Sec → list Sec;
  set_iter_perm : ∀ X, set_iter X ≡ₚ elements X;
}.

Record Splitter := {
  input_pdf : str;
  output_dir : str;
  debug : bool;
}.

Inductive exn :=
| FileNotFoundError (msg : str)
| PdfReadError (msg : str).

Inductive event :=
| Makedirs (dir : str)
| WriteFile (path : str) (content : list Obj)
| PrintLine (line : str)
| PrintTraceback (e : exn).

(** Line 118: [sorted(set(sections), key=lambda x: x[1])] *)
Definition sort_sections (order : SetOrder) (sections : list Sec) : list Sec :=
  sorted snd (set_iter order (list_to_set sections)).

(** Line 144 *)
Definition output_filename (i : nat) (safe_title : str) : str :=
  zfill 2 (str_of_int (Z.of_nat i + 1)) ++ lit "_" ++ safe_title ++ lit ".pdf".

(** Lines 139-140: the pages added to the writer; [None] when a lookup
    raises. *)
Definition copy_pages (reader_pages : list Obj) (start_page end_page : Z)
    : option (list Obj) :=
  mapM (py_getitem reader_pages) (py_range start_page end_page).

(** Lines 133-134: the title and the two bounds for index [i]. *)
Definition section_bounds (sections : list Sec) (i : nat)
    : option (str * Z * Z) :=
  '(title, start_page) ← sections !! i;
  '(_, end_page) ← sections !! S i;
  Some (title, start_page, end_page).

(** Line 145 *)
Definition output_path (host : Host) (self : Splitter) (i : nat) (title : str)
    : str :=
  path_join host (output_dir self) (output_filename i (_sanitize_filename title)).

(** Line 150 *)
Definition created_line (path : str) (start_page end_page : Z) : str :=
  lit "Created: " ++ path ++ lit " (Pages " ++ str_of_int (start_page + 1)
    ++ lit "-" ++ str_of_int end_page ++ lit ")".

(** Lines 133-150, the body of the [try] for index [i]: [None] when an
    exception is raised, which happens before anything is written. *)
Definition split_section (host : Host) (self : Splitter)
    (reader_pages : list Obj) (sections : list Sec) (i : nat)
    : option (list event) :=
  '(title, start_page, end_page) ← section_bounds sections i;
  content ← copy_pages reader_pages start_page end_page;
  let path := output_path host self i title in
  if open_wb_ok host path then
    Some [WriteFile path content; PrintLine (created_line path start_page end_page)]
  else None.

(** Lines 131-156 *)
Definition split_loop (host : Host) (self : Splitter)
    (reader_pages : list Obj) (sections : list Sec) : list event :=
  i ← seq 0 (length sections - 1);
  default [] (split_section host self reader_pages sections i).

(** Line 128: the entry appended for a document of [n] pages. *)
Definition end_section (n : nat) : Sec := (lit "End", Z.of_nat n).

(** Lines 103-156.  The trace and, when an exception leaves the method, the
    exception.  Two calls outside every [try] are taken to succeed:
    [os.makedirs] (line 108), and [PdfReader] with [len(reader.pages)]
    (lines 124-128) on a document that pikepdf opened. *)
Definition split_pdf (host : Host) (order : SetOrder) (self : Splitter)
    : list event * option exn :=
  match fs host (input_pdf self) with
  | None =>
      ([], Some (FileNotFoundError
                   (lit "Input PDF not found: " ++ input_pdf self)))
  | Some file =>
      let sections := _extract_outline file in
      match sections with
      | [] =>
          ([Makedirs (output_dir self);
            PrintLine (lit "No valid outline found in PDF. Cannot split.")], None)
      | _ :: _ =>
          let sections := sort_sections order sections in
          match file with
          | NotAPdf why => ([Makedirs (output_dir self)], Some (PdfReadError why))
          | PdfFile pdf =>
              let reader_pages := pages pdf in
              let sections := sections ++ [end_section (length reader_pages)] in
              (Makedirs (output_dir self)
                 :: split_loop host self reader_pages sections, None)
          end
      end
  end.

(** Lines 26-35 of [__init__]: the run, once the paths are cleaned. *)
Definition exn_str (e : exn) : str :=
  match e with
  | FileNotFoundError msg => msg
  | PdfReadError msg => msg
  end.

Definition run (host : Host) (order : SetOrder) (self : Splitter) : list event :=
  match split_pdf host order self with
  | (trace, None) =>
      trace ++ [PrintLine (lit "Successfully split PDF into sections in: "
                       ++ output_dir self)]
  | (trace, Some e) =>
      trace ++ (if debug self
                then [PrintLine (lit "Full error traceback:"); PrintTraceback e]
                else [PrintLine (lit "Error splitting PDF: " ++ exn_str e)])
  end.

(** [s.endswith(suffix)] *)
Definition endswith (s suffix : str) : bool := bool_decide (suffix `suffix_of` s).

(** Lines 17-23 of [__init__]: the object with its paths cleaned. *)
Definition clean_paths (host : Host) (input_pdf output_dir : str) (debug : bool)
    : Splitter :=
  let input_pdf := normpath host input_pdf in
  {| input_pdf := if endswith (lower host input_pdf) (lit ".pdf")
                  then input_pdf else input_pdf ++ lit ".pdf";
     output_dir := normpath host output_dir;
     debug := debug |}.

(** [PDFChapterSplitter(input_pdf, output_dir, debug)]: the trace of the
    call. *)
Definition __init__ (host : Host) (order : SetOrder)
    (input_pdf output_dir : str) (debug : bool) : list event :=
  run host order (clean_paths host input_pdf output_dir debug).

(** ** What a trace leaves on disk *)

Definition written_file (e : event) : option (str * list Obj) :=
  match e with
  | WriteFile path content => Some (path, content)
  | _ => None
  end.

Definition written_files (trace : list event) : list (str * list Obj) :=
  omap written_file trace.

(** The page ranges of the loop: [(start_page, end_page)] for each index
    of line 131. *)
Definition page_ranges (sections : list Sec) : list (Z * Z) :=
  i ← seq 0 (length sections - 1);
  match section_bounds sections i with
  | Some (_, start_page, end_page) => [(start_page, end_page)]
  | None => []
  end.

(** ** Reading an ordinal back from a filename *)

(** The decimal digits, ['0'] to ['9']. *)
Definition is_digit (c : N) : Prop := (48 ≤ c ≤ 57)%N.

(** The number a string of digits writes. *)
Definition digits_value (s : str) : N :=
  foldl (λ acc c, 10 * acc + (c - 48))%N 0%N s.

(** ** Sample documents and hosts *)

(** A bookmark whose destination is an array starting with [page_obj]. *)
Definition bookmark (title : string) (page_obj : Obj)
    (children : list Outline) : Outline :=
  OutlineItem (Some (lit title)) (Some (Some (DestArray [page_obj; 0%N])))
    (Some children).

(** A bookmark whose destination is not an array. *)
Definition named_bookmark (title : string) : Outline :=
  OutlineItem (Some (lit title)) (Some (Some DestOther)) (Some []).

(** A document of [n] pages whose page objects are 100, 101, ... *)
Definition book (n : nat) (root : list Outline) : Pdf :=
  {| pages := (λ i, N.of_nat (100 + i)) <$> seq 0 n; outline_root := Some root |}.

(** A host holding one document, at [book.pdf], where every file can be
    written, paths are joined with a slash and are already normal, and
    [lower] acts on the ASCII capitals. *)
Definition host_with (pdf : Pdf) : Host :=
  {| fs := λ path, if decide (path = lit "book.pdf") then Some (PdfFile pdf)
                   else None;
     open_wb_ok := λ _, true;
     path_join := λ dir name, dir ++ lit "/" ++ name;
     normpath := λ path, path;
     lower := fmap (λ c, if ((65 <=? c) && (c <=? 90))%N then (c + 32)%N else c) |}.

Definition quiet_splitter : Splitter :=
  {| input_pdf := lit "book.pdf"; output_dir := lit "out"; debug := false |}.

(** Two iteration orders for a set: that of [elements], and its reverse. *)
Definition elements_order : SetOrder :=
  {| set_iter := elements; set_iter_perm := λ X, reflexivity (elements X) |}.

Definition reverse_order : SetOrder :=
  {| set_iter := λ X, reverse (elements X);
     set_iter_perm := λ X, reverse_Permutation (elements X) |}.


(** Two bookmarks with different titles on page index 5 of 8 pages. *)
Definition twins : Pdf := book 8 [bookmark "A" 105 []; bookmark "B" 105 []].

(** Three bookmarks, on page indices 1, 3 and 6 of 8 pages. *)
Definition three_sections : Pdf :=
  book 8 [bookmark "A" 101 []; bookmark "B" 103 []; bookmark "C" 106 []].

(** A document whose second and third pages are the same object, with a
    bookmark on it. *)
Definition repeated_page : Pdf :=
  {| pages := [100; 101; 101; 102]%N;
     outline_root := Some [bookmark "A" 101 []] |}.

(** One bookmark, on page index 1 of 3 pages. *)
Definition late_start : Pdf := book 3 [bookmark "A" 101 []].

(** ** Partitions by page ranges *)

(** The half-open ranges [ranges] cover exactly the page indices from [lo]
    up to [hi], [hi] excluded. *)
Definition covers (lo hi : Z) (ranges : list (Z * Z)) : Prop :=
  ∀ p, lo ≤ p < hi ↔ ∃ r, r ∈ ranges ∧ r.1 ≤ p < r.2.

(** No page index lies in two of the ranges. *)
Definition disjoint_ranges (ranges : list (Z * Z)) : Prop :=
  ∀ i j r1 r2 p,
    ranges !! i = Some r1 → ranges !! j = Some r2 → i ≠ j →
    ¬ (r1.1 ≤ p < r1.2 ∧ r2.1 ≤ p < r2.2).

Definition partitions (lo hi : Z) (ranges : list (Z * Z)) : Prop :=
  covers lo hi ranges ∧ disjoint_ranges ranges.

(** ** The walk of the outline, item by item *)

(** Whether processing the item itself raises: it has a title and its
    destination is there, is not [None] and is not an array. *)
Definition raises (outline : Outline) : bool :=
  match outline with
  | OutlineItem (Some _) (Some (Some DestOther)) _ => true
  | _ => false
  end.

(** What an item appends for itself, its children apart, when it does not
    raise. *)
Definition own_sections (pdf_pages : list Obj) (outline : Outline) : list Sec :=
  match outline with
  | OutlineItem (Some title) destination _ =>
      default [] (resolve_destination pdf_pages title destination)
  | OutlineItem None _ _ => []
  end.

(** The items with a title that a walk reaches when nothing raises, in the
    order in which it processes them: an item, then what is below its first
    child, then what is below the next one; nothing below an item without a
    title. *)
Fixpoint visited (outline : Outline) : list Outline :=
  match outline with
  | OutlineItem None _ _ => []
  | OutlineItem (Some _) _ children =>
      outline ::
      match children with
      | None => []
      | Some cs =>
          (fix below (outlines : list Outline) : list Outline :=
             match outlines with
             | [] => []
             | o :: rest => visited o ++ below rest
             end) cs
      end
  end.

Definition visited_all (outlines : list Outline) : list Outline :=
  outlines ≫= visited.

(** ** Slices of the page list *)

(** [reader_pages[start_page:end_page]] for a start that is not negative. *)
Definition page_slice (reader_pages : list Obj) (start_page end_page : Z)
    : list Obj :=
  take (Z.to_nat (end_page - start_page)) (drop (Z.to_nat start_page) reader_pages).

(** * Proofs *)

(** ** Strings *)

Section strings.
Implicit Types (s : str) (c : N) (p : N → bool).

Lemma lstrip_by_suffix p s : lstrip_by p s `suffix_of` s.
Proof.
  induction s as [|c s IH]; simpl; [done|].
  destruct (p c); [by apply suffix_cons_r|done].
Qed.

Lemma rstrip_by_cons p c s :
  rstrip_by p (c :: s) =
    match rstrip_by p s with
    | [] => if p c then [] else [c]
    | _ :: _ => c :: rstrip_by p s
    end.
Proof. done. Qed.

(** From the right: a last character that satisfies [p] goes, and the
    stripping goes on; any other one stops it. *)
Lemma rstrip_by_snoc p s c :
  rstrip_by p (s ++ [c]) = if p c then rstrip_by p s else s ++ [c].
Proof.
  induction s as [|x s IH]; [done|].
  rewrite <- app_comm_cons, !rstrip_by_cons, IH.
  destruct (p c); [done|]. by destruct s.
Qed.

Lemma rstrip_by_prefix p s : rstrip_by p s `prefix_of` s.
Proof.
  induction s as [|c s IH]; [done|].
  rewrite rstrip_by_cons. destruct (rstrip_by p s) as [|c' r].
  - destruct (p c); [apply prefix_nil|apply prefix_cons, prefix_nil].
  - by apply prefix_cons.
Qed.

(** A right-stripped string does not end with a stripped character. *)
Lemma rstrip_by_last p s c : last (rstrip_by p s) = Some c → p c = false.
Proof.
  induction s as [|c0 s IH]; [done|].
  rewrite rstrip_by_cons. destruct (rstrip_by p s) as [|c' r] eqn:E.
  - destruct (p c0) eqn:Ep; [done|]. by intros [= <-].
  - rewrite last_cons. destruct (last (c' :: r)) eqn:El; [apply IH|].
    by apply last_None in El.
Qed.

Lemma rstrip_by_sublist p s : rstrip_by p s `sublist_of` s.
Proof.
  destruct (rstrip_by_prefix p s) as [k Hk]. rewrite Hk at 2.
  by apply sublist_inserts_r.
Qed.

Lemma lstrip_by_sublist p s : lstrip_by p s `sublist_of` s.
Proof.
  destruct (lstrip_by_suffix p s) as [k Hk]. rewrite Hk at 2.
  by apply sublist_inserts_l.
Qed.

Lemma strip_sublist s : strip s `sublist_of` s.
Proof.
  unfold strip. etrans; [apply rstrip_by_sublist|apply lstrip_by_sublist].
Qed.

End strings.

Lemma sanitize_cases title :
  _sanitize_filename title =
    if decide (stripped_title title = []) then lit "section"
    else stripped_title title.
Proof.
  unfold _sanitize_filename. fold (stripped_title title).
  by destruct (stripped_title title).
Qed.

Lemma stripped_title_sublist title :
  stripped_title title `sublist_of` filter (λ c, c ∉ invalid_chars) title.
Proof.
  unfold stripped_title. etrans; [apply rstrip_by_sublist|].
  etrans; [apply sublist_take|apply strip_sublist].
Qed.

(** C5: for every title, the sanitized filename holds no character of the
    denylist, is at most 50 characters long, does not end with a full stop,
    and is the literal [section] when stripping, trimming, truncating and
    removing the trailing full stops leave nothing. *)
Theorem sanitize_filename_spec (title : str) :
  (∀ c, c ∈ invalid_chars → c ∉ _sanitize_filename title) ∧
  (length (_sanitize_filename title) ≤ 50)%nat ∧
  last (_sanitize_filename title) ≠ Some dot ∧
  (stripped_title title = [] → _sanitize_filename title = lit "section") ∧
  (stripped_title title ≠ [] → _sanitize_filename title = stripped_title title).
Proof.
  rewrite sanitize_cases. case_decide as Hempty.
  - split_and!; [|vm_compute; lia|by vm_compute|done|done].
    intros c Hc. revert c Hc. apply Forall_forall. by compute_done.
  - split_and!; [| | |done|done].
    + intros c Hc Hin.
      eapply elem_of_sublist in Hin; [|apply stripped_title_sublist].
      apply list_elem_of_filter in Hin as [Hnot _]. by apply Hnot.
    + unfold stripped_title.
      etrans; [apply prefix_length, rstrip_by_prefix|].
      rewrite length_take. lia.
    + intros Hlast. apply rstrip_by_last in Hlast.
      by rewrite bool_decide_eq_false in Hlast.
Qed.

(** ** Python lists *)

Section lists.
Context {A : Type}.
Implicit Types (l : list A) (key : A → Z).

Lemma py_getitem_in_range l (i : Z) :
  0 ≤ i < Z.of_nat (length l) → py_getitem l i = l !! Z.to_nat i.
Proof. intros ?. unfold py_getitem. by rewrite decide_True by lia. Qed.

Lemma py_getitem_is_Some l (i : Z) :
  0 ≤ i < Z.of_nat (length l) → is_Some (py_getitem l i).
Proof.
  intros ?. rewrite py_getitem_in_range by done.
  apply lookup_lt_is_Some. lia.
Qed.

Lemma elem_of_py_range (a b k : Z) : k ∈ py_range a b ↔ a ≤ k < b.
Proof. unfold py_range. rewrite elem_of_seqZ. lia. Qed.

Lemma insert_by_perm key x l : insert_by key x l ≡ₚ x :: l.
Proof.
  induction l as [|y l IH]; simpl; [done|].
  case_decide; [done|]. by rewrite IH, Permutation_swap.
Qed.

Lemma sorted_perm key l : sorted key l ≡ₚ l.
Proof.
  induction l as [|x l IH]; simpl; [done|].
  by rewrite insert_by_perm, IH.
Qed.

Lemma insert_by_Sorted key x l :
  Sorted (λ a b, key a ≤ key b) l →
  Sorted (λ a b, key a ≤ key b) (insert_by key x l).
Proof.
  induction 1 as [|y l Hl IH Hhd]; simpl; [by repeat constructor|].
  case_decide as Hle.
  - by repeat constructor.
  - constructor; [done|].
    destruct Hhd as [|z l Hyz]; simpl.
    + constructor. lia.
    + case_decide; constructor; lia.
Qed.

Lemma sorted_Sorted key l : Sorted (λ a b, key a ≤ key b) (sorted key l).
Proof.
  induction l as [|x l IH]; simpl; [constructor|by apply insert_by_Sorted].
Qed.

End lists.

Lemma key_le_trans {A} (key : A → Z) : Transitive (λ a b : A, key a ≤ key b).
Proof. intros a b c. lia. Qed.

(** ** The outline resolver *)

Lemma Outline_ind (P : Outline → Prop) :
  (∀ title destination, P (OutlineItem title destination None)) →
  (∀ title destination children,
     Forall P children → P (OutlineItem title destination (Some children))) →
  ∀ outline, P outline.
Proof.
  intros Hleaf Hnode. fix IH 1. intros [title destination [children|]].
  - apply Hnode. induction children as [|o children IHc]; constructor.
    + apply IH.
    + apply IHc.
  - apply Hleaf.
Qed.

(** The loop over the children is the loop of [process_outlines]. *)
Lemma process_outline_unfold pdf_pages title destination children :
  process_outline pdf_pages (OutlineItem (Some title) destination children) =
    found ← resolve_destination pdf_pages title destination;
    Some (found ++ match children with
                   | None => []
                   | Some cs => process_outlines pdf_pages cs
                   end).
Proof.
  simpl. destruct (resolve_destination _ _ _) as [found|]; simpl; [|done].
  do 2 f_equal. destruct children as [cs|]; [|done].
  induction cs as [|o cs IH]; simpl; [done|].
  destruct (process_outline pdf_pages o); [|done]. by rewrite IH.
Qed.

Lemma resolve_destination_bound pdf_pages title destination found s :
  resolve_destination pdf_pages title destination = Some found →
  s ∈ found → 0 ≤ s.2 < Z.of_nat (length pdf_pages).
Proof.
  unfold resolve_destination. intros Hres Hin.
  repeat case_match; simplify_eq; try by apply elem_of_nil in Hin.
  apply list_elem_of_singleton in Hin as ->. simpl.
  match goal with H : list_find _ _ = Some _ |- _ =>
    apply list_find_Some in H as (Hl & _ & _); apply lookup_lt_Some in Hl end.
  lia.
Qed.

Lemma process_outlines_bound pdf_pages outlines s :
  s ∈ process_outlines pdf_pages outlines →
  0 ≤ s.2 < Z.of_nat (length pdf_pages).
Proof.
  revert s. induction outlines as [|o outlines IHl]; simpl; intros s Hin.
  { by apply elem_of_nil in Hin. }
  assert (∀ secs, process_outline pdf_pages o = Some secs →
                  ∀ s, s ∈ secs → 0 ≤ s.2 < Z.of_nat (length pdf_pages)) as Ho.
  { clear. induction o as [title destination|title destination cs IH]
      using Outline_ind; intros secs Hsecs s Hs.
    - destruct title as [title|]; [|simplify_eq/=; by apply elem_of_nil in Hs].
      rewrite process_outline_unfold in Hsecs.
      destruct (resolve_destination _ _ _) as [found|] eqn:Hres; simplify_eq/=.
      rewrite app_nil_r in Hs. by eapply resolve_destination_bound.
    - destruct title as [title|]; [|simplify_eq/=; by apply elem_of_nil in Hs].
      rewrite process_outline_unfold in Hsecs.
      destruct (resolve_destination _ _ _) as [found|] eqn:Hres; simplify_eq/=.
      apply elem_of_app in Hs as [Hs|Hs]; [by eapply resolve_destination_bound|].
      clear Hres. induction IH as [|o cs Ho _ IHcs]; simpl in Hs.
      { by apply elem_of_nil in Hs. }
      destruct (process_outline pdf_pages o) as [secs|] eqn:Hsecs;
        [|by apply elem_of_nil in Hs].
      apply elem_of_app in Hs as [Hs|Hs]; [by eapply Ho|by apply IHcs]. }
  destruct (process_outline pdf_pages o) as [secs|] eqn:Hsecs;
    [|by apply elem_of_nil in Hin].
  apply elem_of_app in Hin as [Hin|Hin]; [by eapply Ho|by apply IHl].
Qed.

(** An item that raises ends the loop: the items after it are not looked
    at, whatever they are. *)
Lemma process_outlines_raise pdf_pages before o after :
  process_outline pdf_pages o = None →
  process_outlines pdf_pages (before ++ o :: after) =
  process_outlines pdf_pages (before ++ [o]).
Proof.
  intros Ho. induction before as [|o' before IH]; simpl.
  - by rewrite Ho.
  - destruct (process_outline pdf_pages o'); [by rewrite IH|done].
Qed.

Lemma extract_outline_bound pdf s :
  s ∈ _extract_outline (PdfFile pdf) →
  0 ≤ s.2 < Z.of_nat (length (pages pdf)).
Proof.
  simpl. destruct (outline_root pdf) as [root|].
  - apply process_outlines_bound.
  - intros Hin. by apply elem_of_nil in Hin.
Qed.

(** ** Deduplication and sorting *)

Section sort_sections.
Context (order : SetOrder).
Implicit Types (raw : list Sec) (s : Sec).

Lemma sort_sections_perm raw :
  sort_sections order raw ≡ₚ elements (list_to_set (C:=gset Sec) raw).
Proof. unfold sort_sections. by rewrite sorted_perm, set_iter_perm. Qed.

Lemma elem_of_sort_sections raw s : s ∈ sort_sections order raw ↔ s ∈ raw.
Proof.
  rewrite sort_sections_perm, elem_of_elements. apply elem_of_list_to_set.
Qed.

Lemma NoDup_sort_sections raw : NoDup (sort_sections order raw).
Proof. rewrite sort_sections_perm. apply NoDup_elements. Qed.

Lemma sort_sections_length raw :
  length (sort_sections order raw) = size (list_to_set (C:=gset Sec) raw).
Proof. by rewrite sort_sections_perm. Qed.

Lemma sort_sections_Sorted raw :
  Sorted (λ a b : Sec, a.2 ≤ b.2) (sort_sections order raw).
Proof. apply sorted_Sorted. Qed.

Lemma sort_sections_nonempty raw : raw ≠ [] → sort_sections order raw ≠ [].
Proof.
  destruct raw as [|s raw]; [done|]. intros _ Hnil.
  assert (s ∈ sort_sections order (s :: raw)) as Hin.
  { apply elem_of_sort_sections. left. }
  rewrite Hnil in Hin. by apply elem_of_nil in Hin.
Qed.

Lemma sort_sections_end_Sorted pdf :
  Sorted (λ a b : Sec, a.2 ≤ b.2)
    (sort_sections order (_extract_outline (PdfFile pdf))
       ++ [end_section (length (pages pdf))]).
Proof.
  apply Sorted_snoc; [apply sort_sections_Sorted|].
  pose proof (elem_of_sort_sections (_extract_outline (PdfFile pdf))) as Hin.
  destruct (sort_sections order _) as [|s l IH] using rev_ind; constructor.
  assert (s ∈ l ++ [s]) as Hs by set_solver.
  apply Hin in Hs. apply extract_outline_bound in Hs. simpl. lia.
Qed.
End sort_sections.

Lemma sort_sections_pages_Sorted order raw :
  Sorted Z.le (sort_sections order raw).*2.
Proof. eapply Sorted_fmap; [|apply sort_sections_Sorted]. done. Qed.

Lemma sort_sections_end_pages_Sorted order pdf :
  Sorted Z.le
    (sort_sections order (_extract_outline (PdfFile pdf))
       ++ [end_section (length (pages pdf))]).*2.
Proof. eapply Sorted_fmap; [|apply sort_sections_end_Sorted]. done. Qed.

(** ** Page ranges *)

Lemma section_bounds_Some sections i title start_page end_page :
  section_bounds sections i = Some (title, start_page, end_page) ↔
  sections !! i = Some (title, start_page) ∧
  sections.*2 !! S i = Some end_page.
Proof.
  unfold section_bounds. rewrite list_lookup_fmap.
  destruct (sections !! i) as [[t s]|]; simpl; [|naive_solver].
  destruct (sections !! S i) as [[t' e]|]; simpl; naive_solver.
Qed.

Lemma section_bounds_is_Some sections i :
  (i < length sections - 1)%nat → is_Some (section_bounds sections i).
Proof.
  intros Hi. unfold section_bounds.
  destruct (lookup_lt_is_Some_2 sections i) as [[t s] ->]; [lia|].
  destruct (lookup_lt_is_Some_2 sections (S i)) as [[t' e] ->]; [lia|].
  by eexists.
Qed.

(** The ranges pair each page index with the next one. *)
Lemma page_ranges_zip sections :
  page_ranges sections = zip (sections.*2) (drop 1 (sections.*2)).
Proof.
  unfold page_ranges.
  cut (∀ before,
    (i ← seq (length before) (length sections - 1);
     match section_bounds (before ++ sections) i with
     | Some (_, start_page, end_page) => [(start_page, end_page)]
     | None => []
     end) = zip (sections.*2) (drop 1 (sections.*2))).
  { intros H. apply (H []). }
  induction sections as [|[t a] sections IH]; intros before; [done|].
  destruct sections as [|[t' b] sections]; [done|].
  replace (length ((t, a) :: (t', b) :: sections) - 1)%nat
    with (S (length ((t', b) :: sections) - 1)) by (simpl; lia).
  remember (length ((t', b) :: sections) - 1)%nat as n eqn:Hn. clear Hn.
  specialize (IH (before ++ [(t, a)])).
  rewrite length_app, Nat.add_1_r, <- (assoc_L (++)) in IH. cbn [app] in IH.
  cbn [seq]. rewrite bind_cons, IH. clear IH.
  unfold section_bounds.
  rewrite (list_lookup_middle before _ _ (length before)) by done. simpl.
  rewrite (lookup_app_r before) by lia.
  by replace (S (length before) - length before)%nat with 1%nat by lia.
Qed.

Lemma page_ranges_lookup sections i start_page end_page :
  page_ranges sections !! i = Some (start_page, end_page) ↔
  sections.*2 !! i = Some start_page ∧ sections.*2 !! S i = Some end_page.
Proof.
  rewrite page_ranges_zip, lookup_zip_Some. simpl.
  by rewrite lookup_drop.
Qed.

Lemma page_ranges_length sections :
  length (page_ranges sections) = (length sections - 1)%nat.
Proof.
  rewrite page_ranges_zip, length_zip, length_drop, length_fmap. lia.
Qed.

(** In a list of integers that never decreases, an entry is at most any
    entry after it. *)
Lemma Sorted_le_lookup (l : list Z) i j a b :
  Sorted Z.le l → (i ≤ j)%nat → l !! i = Some a → l !! j = Some b → a ≤ b.
Proof.
  intros Hl%Sorted_StronglySorted; [|apply _].
  revert i j. induction Hl as [|x l Hl IH Hx]; intros i j Hij Hi Hj; [done|].
  destruct i as [|i], j as [|j]; simplify_eq/=; [lia|..|lia|].
  - rewrite Forall_forall in Hx. apply Hx. by eapply list_elem_of_lookup_2.
  - eapply (IH i j); [lia|done..].
Qed.

(** Between the first and the last entry of a list of integers, every
    integer lies in the range of some pair of neighbours. *)
Lemma neighbours_cover (a : Z) (l : list Z) (p : Z) :
  a ≤ p < default a (last l) →
  ∃ r, r ∈ zip (a :: l) l ∧ r.1 ≤ p < r.2.
Proof.
  revert a. induction l as [|b l IH]; intros a Hp; simpl in *; [lia|].
  destruct (decide (p < b)) as [Hlt|Hge].
  - exists (a, b). split; [left|simpl; lia].
  - destruct (IH b) as (r & Hr & Hpr).
    + rewrite last_cons in Hp. destruct (last l); simpl in *; lia.
    + exists r. split; [by right|done].
Qed.

(** ** The loop of [split_pdf] *)

Section split_loop.
Context (host : Host) (self : Splitter) (reader_pages : list Obj).
Implicit Types (sections : list Sec) (trace : list event).

Lemma copy_pages_empty (start_page end_page : Z) :
  end_page ≤ start_page → copy_pages reader_pages start_page end_page = Some [].
Proof.
  intros ?. unfold copy_pages, py_range. by rewrite seqZ_nil by lia.
Qed.

Lemma copy_pages_is_Some (start_page end_page : Z) :
  0 ≤ start_page → end_page ≤ Z.of_nat (length reader_pages) →
  is_Some (copy_pages reader_pages start_page end_page).
Proof.
  intros ??. apply mapM_is_Some, Forall_forall. intros k Hk%elem_of_py_range.
  apply py_getitem_is_Some. lia.
Qed.

Lemma split_section_Some sections i trace :
  split_section host self reader_pages sections i = Some trace ↔
  ∃ title start_page end_page content,
    section_bounds sections i = Some (title, start_page, end_page) ∧
    copy_pages reader_pages start_page end_page = Some content ∧
    open_wb_ok host (output_path host self i title) = true ∧
    trace = [WriteFile (output_path host self i title) content;
             PrintLine (created_line (output_path host self i title)
                      start_page end_page)].
Proof.
  unfold split_section. split.
  - destruct (section_bounds sections i) as [[[title s] e]|] eqn:Hb; [|done].
    simpl.
    destruct (copy_pages reader_pages s e) as [content|] eqn:Hc; [|done].
    simpl. destruct (open_wb_ok host _) eqn:Hopen; [|done].
    intros [= <-]. by eexists _, _, _, _.
  - intros (title & s & e & content & Hb & Hc & Hopen & ->).
    rewrite Hb. simpl. rewrite Hc. simpl. by rewrite Hopen.
Qed.

Lemma elem_of_split_loop sections i trace e :
  (i < length sections - 1)%nat →
  split_section host self reader_pages sections i = Some trace →
  e ∈ trace → e ∈ split_loop host self reader_pages sections.
Proof.
  intros Hi Htrace He. unfold split_loop. apply list_elem_of_bind.
  exists i. rewrite Htrace. split; [done|]. apply elem_of_seq. lia.
Qed.
End split_loop.

Lemma sort_sections_nil order : sort_sections order [] = [].
Proof.
  apply Permutation_nil_r. rewrite sort_sections_perm. simpl.
  by rewrite elements_empty.
Qed.

Lemma split_pdf_splits host order self pdf :
  fs host (input_pdf self) = Some (PdfFile pdf) →
  _extract_outline (PdfFile pdf) ≠ [] →
  split_pdf host order self =
    (Makedirs (output_dir self)
       :: split_loop host self (pages pdf)
            (sort_sections order (_extract_outline (PdfFile pdf))
               ++ [end_section (length (pages pdf))]),
     None).
Proof.
  intros Hfs Hne. unfold split_pdf. rewrite Hfs.
  by destruct (_extract_outline (PdfFile pdf)).
Qed.

(** The bounds of every iteration lie within the document. *)
Lemma section_bounds_in_document pdf order i title start_page end_page :
  section_bounds
    (sort_sections order (_extract_outline (PdfFile pdf))
       ++ [end_section (length (pages pdf))]) i
  = Some (title, start_page, end_page) →
  0 ≤ start_page ∧ end_page ≤ Z.of_nat (length (pages pdf)).
Proof.
  set (sections := _ ++ _).
  assert (∀ s, s ∈ sections → 0 ≤ s.2 ≤ Z.of_nat (length (pages pdf))) as Hall.
  { intros s [Hs|Hs]%elem_of_app.
    - apply elem_of_sort_sections, extract_outline_bound in Hs. lia.
    - apply list_elem_of_singleton in Hs as ->. simpl. lia. }
  intros [Hi HSi]%section_bounds_Some.
  apply list_elem_of_lookup_2, Hall in Hi.
  apply list_lookup_fmap_Some in HSi as ([t' e'] & -> & HSi).
  apply list_elem_of_lookup_2, Hall in HSi. simpl in *. lia.
Qed.

Lemma section_copy_is_Some pdf order i title start_page end_page :
  section_bounds
    (sort_sections order (_extract_outline (PdfFile pdf))
       ++ [end_section (length (pages pdf))]) i
  = Some (title, start_page, end_page) →
  is_Some (copy_pages (pages pdf) start_page end_page).
Proof.
  intros [??]%section_bounds_in_document. by apply copy_pages_is_Some.
Qed.

(** ** The claims *)

(** Denied characters go, then the blanks at both ends, then the full stops
    at the end. *)
Example sanitize_example : _sanitize_filename (lit "  a<b>..  ") = lit "ab".
Proof. by vm_compute. Qed.

(** Three bookmarks on page indices 0, 10 and 25 of 40 pages. *)
Example three_chapters :
  let pdf := book 40 [bookmark "One" 100 []; bookmark "Two" 110 [];
                      bookmark "Three" 125 []] in
  page_ranges (sort_sections elements_order (_extract_outline (PdfFile pdf))
                 ++ [end_section 40])
    = [(0, 10); (10, 25); (25, 40)] ∧
  (written_files (split_pdf (host_with pdf) elements_order quiet_splitter).1).*1
    = [lit "out/01_One.pdf"; lit "out/02_Two.pdf"; lit "out/03_Three.pdf"].
Proof. split; by vm_compute. Qed.

(** C5, at a title made of a denied character, a full stop and blanks. *)
Lemma sanitize_filename_spec_witness :
  _sanitize_filename (lit " ?. ") = lit "section".
Proof.
  apply (sanitize_filename_spec (lit " ?. ")). by vm_compute.
Defined.

(** C7: when the input path does not exist, [split_pdf] raises
    [FileNotFoundError] with the message [Input PDF not found: ] followed by
    the path, before the output directory is created and before any file is
    written; the caller prints that message, or the traceback of that
    exception in debug mode, and nothing else happens. *)
Theorem missing_input_aborts (host : Host) (order : SetOrder) (self : Splitter) :
  fs host (input_pdf self) = None →
  split_pdf host order self =
    ([], Some (FileNotFoundError
                 (lit "Input PDF not found: " ++ input_pdf self))) ∧
  run host order self =
    (if debug self
     then [PrintLine (lit "Full error traceback:");
           PrintTraceback (FileNotFoundError
                             (lit "Input PDF not found: " ++ input_pdf self))]
     else [PrintLine (lit "Error splitting PDF: "
                  ++ lit "Input PDF not found: " ++ input_pdf self)]) ∧
  written_files (run host order self) = [] ∧
  (∀ dir, Makedirs dir ∉ run host order self).
Proof.
  intros Hfs.
  assert (split_pdf host order self =
    ([], Some (FileNotFoundError
                 (lit "Input PDF not found: " ++ input_pdf self)))) as Hsplit.
  { unfold split_pdf. by rewrite Hfs. }
  split; [done|]. unfold run. rewrite Hsplit. simpl.
  destruct (debug self); (split; [done|]); (split; [done|]);
    intros dir Hin; rewrite !elem_of_cons, elem_of_nil in Hin; naive_solver.
Qed.

Lemma missing_input_aborts_witness :
  __init__ (host_with (book 3 [])) elements_order (lit "other") (lit "out") false
  = [PrintLine (lit "Error splitting PDF: "
                ++ lit "Input PDF not found: " ++ lit "other.pdf")].
Proof.
  apply (missing_input_aborts (host_with (book 3 [])) elements_order
           (clean_paths (host_with (book 3 [])) (lit "other") (lit "out") false)).
  by vm_compute.
Defined.

(** C2, on the code: a bookmark whose destination is not an array, followed
    by a sibling that points at page 1.  The walk returns nothing, although
    the sibling alone gives its section. *)
Theorem later_sibling_lost :
  _extract_outline
    (PdfFile (book 2 [named_bookmark "A"; bookmark "B" 101 []])) = [] ∧
  _extract_outline (PdfFile (book 2 [bookmark "B" 101 []])) = [(lit "B", 1)].
Proof. split; by vm_compute. Qed.

(** C9: every pair the resolver emits has its page index within the page
    list of the document, and so every page index the loop of the splitter
    looks up, over the ranges bounded by the section page indices and the
    page count, is within bounds. *)
Theorem resolved_pages_in_bounds (pdf : Pdf) (order : SetOrder) :
  let resolved := _extract_outline (PdfFile pdf) in
  let sections :=
    sort_sections order resolved ++ [end_section (length (pages pdf))] in
  (∀ title page, (title, page) ∈ resolved →
     0 ≤ page < Z.of_nat (length (pages pdf))) ∧
  (∀ i title start_page end_page page_num,
     section_bounds sections i = Some (title, start_page, end_page) →
     page_num ∈ py_range start_page end_page →
     0 ≤ page_num < Z.of_nat (length (pages pdf)) ∧
     py_getitem (pages pdf) page_num = pages pdf !! Z.to_nat page_num ∧
     is_Some (py_getitem (pages pdf) page_num)) ∧
  (∀ i title start_page end_page,
     section_bounds sections i = Some (title, start_page, end_page) →
     is_Some (copy_pages (pages pdf) start_page end_page)).
Proof.
  intros resolved sections. split_and!.
  - intros title page Hin. by apply extract_outline_bound in Hin.
  - intros i title s e k [??]%section_bounds_in_document Hk%elem_of_py_range.
    assert (0 ≤ k < Z.of_nat (length (pages pdf))) by lia.
    split_and!; [lia..| |].
    + by apply py_getitem_in_range.
    + by apply py_getitem_is_Some.
  - intros i title s e Hb. by eapply section_copy_is_Some.
Qed.

Lemma resolved_pages_in_bounds_witness :
  is_Some (copy_pages (pages (book 5 [bookmark "A" 101 []; bookmark "B" 103 []]))
             1 3).
Proof.
  apply (proj2 (proj2 (resolved_pages_in_bounds
           (book 5 [bookmark "A" 101 []; bookmark "B" 103 []]) elements_order))
           0%nat (lit "A")).
  by vm_compute.
Defined.

(** C8: the deduplicated sections sorted by page index never decrease in
    page index; this still holds once the [End] entry is appended; and when
    the resolved list is not empty, so that splitting goes on, the sequence
    with the [End] entry has at least two elements. *)
Theorem sections_sorted (pdf : Pdf) (order : SetOrder) :
  let resolved := _extract_outline (PdfFile pdf) in
  let sections := sort_sections order resolved in
  let with_end := sections ++ [end_section (length (pages pdf))] in
  Sorted Z.le sections.*2 ∧
  Sorted Z.le with_end.*2 ∧
  (resolved ≠ [] → (2 ≤ length with_end)%nat).
Proof.
  intros resolved sections with_end. split_and!.
  - apply sort_sections_pages_Sorted.
  - apply sort_sections_end_pages_Sorted.
  - intros Hne%(sort_sections_nonempty order). unfold with_end, sections.
    rewrite length_app. destruct (sort_sections order resolved); [done|].
    simpl. lia.
Qed.

Lemma sections_sorted_witness :
  (2 ≤ length (sort_sections elements_order
                 (_extract_outline
                    (PdfFile (book 5 [bookmark "B" 103 []; bookmark "A" 101 []])))
               ++ [end_section 5]))%nat.
Proof.
  apply (proj2 (proj2 (sections_sorted
           (book 5 [bookmark "B" 103 []; bookmark "A" 101 []]) elements_order))).
  by vm_compute.
Defined.

(** ** Filenames *)

Section filenames.
Implicit Types (s r : str) (c : N).

Lemma lit_app (a b : string) : lit (a +:+ b) = lit a ++ lit b.
Proof.
  unfold lit. induction a as [|x a IH]; simpl; [done|].
  f_equal. apply IH.
Qed.

Lemma digits_value_snoc s c :
  digits_value (s ++ [c]) = (10 * digits_value s + (c - 48))%N.
Proof. unfold digits_value. by rewrite foldl_app. Qed.

Lemma digits_value_zeros (k : nat) s :
  digits_value (replicate k 48%N ++ s) = digits_value s.
Proof.
  unfold digits_value. rewrite foldl_app.
  replace (foldl _ 0%N (replicate k 48%N)) with 0%N; [done|].
  induction k as [|k IH]; simpl; [done|]. apply IH.
Qed.

Lemma pretty_N_char_code (d : N) :
  (d < 10)%N → N_of_ascii (pretty_N_char d) = (48 + d)%N.
Proof.
  intros Hd.
  assert (d = 0 ∨ d = 1 ∨ d = 2 ∨ d = 3 ∨ d = 4 ∨ d = 5 ∨ d = 6 ∨ d = 7
          ∨ d = 8 ∨ d = 9)%N as Hcases by lia.
  destruct_or!; by subst.
Qed.

(** What [pretty_N_go] puts in front of its accumulator: digits, which
    write the number. *)
Lemma pretty_N_go_digits (x : N) :
  ∃ ds, (∀ a, lit (pretty_N_go x a) = ds ++ lit a) ∧
        Forall is_digit ds ∧ digits_value ds = x.
Proof.
  induction (N.lt_wf_0 x) as [x _ IH].
  destruct (decide (x = 0%N)) as [->|Hx].
  { exists []. by split_and!. }
  destruct (IH (x `div` 10)%N) as (ds & Hgo & Hds & Hval).
  { apply N.div_lt; lia. }
  assert (x `mod` 10 < 10)%N as Hmod by (apply N.mod_lt; lia).
  exists (ds ++ [N_of_ascii (pretty_N_char (x `mod` 10))]). split_and!.
  - intros a. rewrite pretty_N_go_step by lia. rewrite Hgo.
    by rewrite <- (assoc_L (++)).
  - apply Forall_app. split; [done|]. apply Forall_singleton.
    rewrite pretty_N_char_code by done. unfold is_digit.
    revert Hmod. generalize (x `mod` 10)%N. lia.
  - rewrite digits_value_snoc, Hval, pretty_N_char_code by done.
    pose proof (N.div_mod x 10 ltac:(done)) as Hdm. clear -Hdm. revert Hdm.
    generalize (x `div` 10)%N (x `mod` 10)%N. lia.
Qed.

Lemma str_of_int_digits (n : Z) :
  0 < n →
  Forall is_digit (str_of_int n) ∧ digits_value (str_of_int n) = Z.to_N n.
Proof.
  intros Hn. destruct n as [|p|p]; [lia| |lia].
  unfold str_of_int, pretty, pretty_Z, pretty, pretty_positive, pretty,
    pretty_N.
  rewrite decide_False by done.
  destruct (pretty_N_go_digits (N.pos p)) as (ds & Hgo & Hds & Hval).
  rewrite Hgo. change (lit "") with (@nil N). by rewrite app_nil_r.
Qed.

Lemma zfill_digits (width : nat) s :
  Forall is_digit s →
  Forall is_digit (zfill width s) ∧
  digits_value (zfill width s) = digits_value s.
Proof.
  intros Hs. unfold zfill.
  assert (Forall is_digit (replicate (width - length s) 48%N)) as Hpad.
  { apply Forall_replicate. unfold is_digit. lia. }
  destruct Hs as [|c s Hc Hs].
  { split; [done|]. rewrite <- (app_nil_r (replicate _ _)).
    apply digits_value_zeros. }
  assert (((c =? 43) || (c =? 45))%N = false) as ->.
  { unfold is_digit in Hc. apply orb_false_intro; apply N.eqb_neq; lia. }
  split; [|apply digits_value_zeros].
  apply Forall_app. split; [done|by constructor].
Qed.

(** Two strings of digits followed by the same character, not a digit,
    are equal when what they start is equal. *)
Lemma digits_prefix_inj s1 s2 c r1 r2 :
  Forall is_digit s1 → Forall is_digit s2 → ¬ is_digit c →
  s1 ++ c :: r1 = s2 ++ c :: r2 → s1 = s2.
Proof.
  intros Hs1. revert s2.
  induction Hs1 as [|x s1 Hx Hs1 IH]; intros s2 Hs2 Hc Heq.
  - destruct Hs2 as [|y s2 Hy _]; [done|]. simplify_eq/=. done.
  - destruct Hs2 as [|y s2 Hy Hs2]; simplify_eq/=; [done|].
    f_equal. by apply IH.
Qed.

(** The ordinal can be read back from the filename. *)
Lemma output_filename_inj (i j : nat) s1 s2 :
  output_filename i s1 = output_filename j s2 → i = j.
Proof.
  unfold output_filename. intros Heq.
  destruct (str_of_int_digits (Z.of_nat i + 1)) as [Hdi Hvi]; [lia|].
  destruct (str_of_int_digits (Z.of_nat j + 1)) as [Hdj Hvj]; [lia|].
  destruct (zfill_digits 2 _ Hdi) as [Hzi Hzvi].
  destruct (zfill_digits 2 _ Hdj) as [Hzj Hzvj].
  change (lit "_") with [95%N] in Heq.
  apply digits_prefix_inj in Heq; [|done|done|unfold is_digit; lia].
  assert (Z.to_N (Z.of_nat i + 1) = Z.to_N (Z.of_nat j + 1)) as Hij.
  { rewrite <- Hvi, <- Hvj, <- Hzvi, <- Hzvj. by rewrite Heq. }
  lia.
Qed.
End filenames.

(** ** The files a run writes *)

Section written.
Context (host : Host) (self : Splitter) (reader_pages : list Obj).
Implicit Types (sections : list Sec) (trace : list event).

Lemma written_files_app trace1 trace2 :
  written_files (trace1 ++ trace2) =
  written_files trace1 ++ written_files trace2.
Proof. apply omap_app. Qed.

(** An iteration writes one file, named after its index, or nothing. *)
Lemma written_files_split_section sections i :
  written_files
    (default [] (split_section host self reader_pages sections i)) = [] ∨
  ∃ title content,
    written_files
      (default [] (split_section host self reader_pages sections i)) =
    [(output_path host self i title, content)].
Proof.
  destruct (split_section host self reader_pages sections i)
    as [trace|] eqn:Htrace; [|by left].
  apply split_section_Some in Htrace
    as (title & s & e & content & _ & _ & _ & ->).
  right. by exists title, content.
Qed.

Lemma written_files_split_section_length sections i :
  is_Some (split_section host self reader_pages sections i) →
  length (written_files
            (default [] (split_section host self reader_pages sections i)))
  = 1%nat.
Proof.
  intros [trace Htrace]. rewrite Htrace.
  by apply split_section_Some in Htrace as (? & ? & ? & ? & _ & _ & _ & ->).
Qed.

Lemma split_loop_files_length sections :
  (∀ i, (i < length sections - 1)%nat →
        is_Some (split_section host self reader_pages sections i)) →
  length (written_files (split_loop host self reader_pages sections))
  = (length sections - 1)%nat.
Proof.
  intros Hall. unfold split_loop.
  cut (∀ l : list nat,
    (∀ i, i ∈ l → is_Some (split_section host self reader_pages sections i)) →
    length (written_files
              (i ← l;
               default [] (split_section host self reader_pages sections i)))
    = length l).
  { intros Hcut. rewrite Hcut, length_seq; [done|].
    intros i Hi%elem_of_seq. apply Hall. lia. }
  induction l as [|i l IH]; intros Hl; [done|].
  rewrite bind_cons, written_files_app, length_app.
  rewrite written_files_split_section_length by (apply Hl; left).
  simpl. f_equal. apply IH. intros j Hj. apply Hl. by right.
Qed.

Lemma split_loop_paths sections :
  (written_files (split_loop host self reader_pages sections)).*1 =
  i ← seq 0 (length sections - 1);
  (written_files
     (default [] (split_section host self reader_pages sections i))).*1.
Proof.
  unfold split_loop.
  induction (seq 0 (length sections - 1)) as [|i l IH]; [done|].
  by rewrite !bind_cons, written_files_app, fmap_app, IH.
Qed.

(** The files of a run have different names. *)
Lemma split_loop_paths_NoDup sections :
  (∀ dir, Inj (=) (=) (path_join host dir)) →
  NoDup (written_files (split_loop host self reader_pages sections)).*1.
Proof.
  intros Hinj. rewrite split_loop_paths. apply NoDup_bind.
  - intros i j path _ _ Hi Hj.
    destruct (written_files_split_section sections i)
      as [Hnil|(ti & ci & Hwi)]; [rewrite Hnil in Hi; by inv Hi|].
    destruct (written_files_split_section sections j)
      as [Hnil|(tj & cj & Hwj)]; [rewrite Hnil in Hj; by inv Hj|].
    rewrite Hwi in Hi. rewrite Hwj in Hj.
    apply list_elem_of_singleton in Hi, Hj. simpl in *. subst path.
    apply Hinj in Hj. by apply output_filename_inj in Hj.
  - intros i _.
    destruct (written_files_split_section sections i)
      as [->|(ti & ci & ->)]; [constructor|apply NoDup_singleton].
  - apply NoDup_seq.
Qed.
End written.

(** C4: for a document whose resolved outline is not empty, when no write
    fails, [split_pdf] writes as many files as there are distinct
    (title, page index) pairs, the [End] entry not counted; the files have
    different paths when joining a directory with two different names gives
    two different paths. *)
Theorem one_file_per_section (host : Host) (order : SetOrder) (self : Splitter)
    (pdf : Pdf) :
  fs host (input_pdf self) = Some (PdfFile pdf) →
  _extract_outline (PdfFile pdf) ≠ [] →
  (∀ path, open_wb_ok host path = true) →
  let files := written_files (split_pdf host order self).1 in
  length files =
    size (list_to_set (C:=gset Sec) (_extract_outline (PdfFile pdf))) ∧
  ((∀ dir, Inj (=) (=) (path_join host dir)) → NoDup files.*1).
Proof.
  intros Hfs Hne Hopen files. unfold files.
  rewrite (split_pdf_splits _ _ _ pdf) by done. simpl.
  change (omap written_file ?t) with (written_files t). split.
  - rewrite split_loop_files_length.
    + rewrite length_app, sort_sections_length. simpl. lia.
    + intros i Hi.
      destruct (section_bounds_is_Some _ i Hi) as [[[title s] e] Hb].
      destruct (section_copy_is_Some pdf order i title s e Hb)
        as [content Hcontent].
      eexists. apply split_section_Some. by eexists _, _, _, _.
  - apply split_loop_paths_NoDup.
Qed.

Lemma one_file_per_section_witness :
  length (written_files
            (split_pdf
               (host_with (book 5 [bookmark "A" 101 [bookmark "A" 101 []];
                                   bookmark "B" 103 []]))
               elements_order quiet_splitter).1) = 2%nat.
Proof.
  refine (eq_trans
    (proj1 (one_file_per_section
       (host_with (book 5 [bookmark "A" 101 [bookmark "A" 101 []];
                           bookmark "B" 103 []]))
       elements_order quiet_splitter
       (book 5 [bookmark "A" 101 [bookmark "A" 101 []]; bookmark "B" 103 []])
       _ _ _)) _).
  - by vm_compute.
  - by vm_compute.
  - done.
  - by vm_compute.
Defined.

(** C10: when a section and the entry after it have the same page index,
    the copy loop copies no page and the iteration goes on to write: it
    raises only if the file cannot be opened, and otherwise [split_pdf]
    writes a file without pages for that section. *)
Theorem zero_page_section_written (host : Host) (order : SetOrder)
    (self : Splitter) (pdf : Pdf) (i : nat) (title : str) (page : Z) :
  let sections :=
    sort_sections order (_extract_outline (PdfFile pdf))
      ++ [end_section (length (pages pdf))] in
  fs host (input_pdf self) = Some (PdfFile pdf) →
  sections !! i = Some (title, page) →
  sections.*2 !! S i = Some page →
  copy_pages (pages pdf) page page = Some [] ∧
  split_section host self (pages pdf) sections i =
    (if open_wb_ok host (output_path host self i title)
     then Some [WriteFile (output_path host self i title) [];
                PrintLine (created_line (output_path host self i title) page page)]
     else None) ∧
  (open_wb_ok host (output_path host self i title) = true →
   WriteFile (output_path host self i title) []
     ∈ (split_pdf host order self).1).
Proof.
  intros sections Hfs Hi HSi.
  assert (section_bounds sections i = Some (title, page, page)) as Hb.
  { by apply section_bounds_Some. }
  assert (copy_pages (pages pdf) page page = Some []) as Hcopy.
  { by apply copy_pages_empty. }
  assert (split_section host self (pages pdf) sections i =
    (if open_wb_ok host (output_path host self i title)
     then Some [WriteFile (output_path host self i title) [];
                PrintLine (created_line (output_path host self i title) page page)]
     else None)) as Hsplit.
  { unfold split_section. rewrite Hb. simpl. by rewrite Hcopy. }
  split_and!; [done..|]. intros Hopen. rewrite Hopen in Hsplit.
  assert (_extract_outline (PdfFile pdf) ≠ []) as Hne.
  { intros Hnil. unfold sections in HSi.
    rewrite Hnil, sort_sections_nil in HSi. done. }
  rewrite (split_pdf_splits _ _ _ pdf) by done. cbn [fst]. right.
  eapply elem_of_split_loop; [|exact Hsplit|left].
  apply lookup_lt_Some in HSi. rewrite length_fmap in HSi.
  subst sections. lia.
Qed.

Lemma zero_page_section_written_witness :
  WriteFile (lit "out/01_B.pdf") []
    ∈ (split_pdf (host_with twins) elements_order quiet_splitter).1.
Proof.
  apply (proj2 (proj2 (zero_page_section_written (host_with twins)
           elements_order quiet_splitter twins 0 (lit "B") 5
           ltac:(by vm_compute) ltac:(by vm_compute) ltac:(by vm_compute)))).
  by vm_compute.
Defined.

(** ** Partition of the pages *)

Lemma Sorted_lt_lookup (l : list Z) i j a b :
  Sorted Z.lt l → (i < j)%nat → l !! i = Some a → l !! j = Some b → a < b.
Proof.
  intros Hl%Sorted_StronglySorted; [|apply _].
  revert i j. induction Hl as [|x l Hl IH Hx]; intros i j Hij Hi Hj; [done|].
  destruct j as [|j]; [lia|]. destruct i as [|i]; simplify_eq/=.
  - rewrite Forall_forall in Hx. apply Hx. by eapply list_elem_of_lookup_2.
  - eapply (IH i j); [lia|done..].
Qed.

(** The ranges between neighbours of a list of integers that never
    decreases partition the integers from its first to its last entry. *)
Lemma neighbours_partition (lo hi : Z) (l : list Z) :
  Sorted Z.le (lo :: l) → last (lo :: l) = Some hi →
  partitions lo hi (zip (lo :: l) l).
Proof.
  intros Hsorted Hlast.
  assert (∀ i r, zip (lo :: l) l !! i = Some r →
                 (lo :: l) !! i = Some r.1 ∧ (lo :: l) !! S i = Some r.2)
    as Hzip.
  { intros i [a b] Hr. by apply lookup_zip_Some in Hr. }
  assert (∀ i a, (lo :: l) !! i = Some a → lo ≤ a ≤ hi) as Hrange.
  { intros i a Hi. split.
    - by eapply (Sorted_le_lookup _ 0 i); [|lia|..].
    - rewrite last_lookup in Hlast.
      eapply (Sorted_le_lookup _ i); [done| |done..].
      apply lookup_lt_Some in Hi. lia. }
  split.
  - intros p. split.
    + intros Hp. apply neighbours_cover.
      rewrite last_cons in Hlast. destruct (last l); simplify_eq/=; lia.
    + intros (r & [i Hr]%list_elem_of_lookup_1 & Hp).
      apply Hzip in Hr as [H1%Hrange H2%Hrange]. lia.
  - intros i j r1 r2 p [Hi HSi]%Hzip [Hj HSj]%Hzip Hij [H1 H2].
    destruct (decide (i < j)%nat).
    + pose proof (Sorted_le_lookup _ (S i) j _ _ Hsorted ltac:(lia) HSi Hj).
      lia.
    + pose proof (Sorted_le_lookup _ (S j) i _ _ Hsorted ltac:(lia) HSj Hi).
      lia.
Qed.

(** C1, as the code has it: when the sorted, deduplicated sections have
    strictly increasing page indices, the ranges of the loop partition the
    page indices from that of the first section up to the page count:
    every such index lies in a range, every index of a range is such an
    index, no index lies in two ranges, and no range is empty.  The pages
    before the first section belong to no range. *)
Theorem ranges_partition (pdf : Pdf) (order : SetOrder) (first : Z) :
  let sections := sort_sections order (_extract_outline (PdfFile pdf)) in
  let total := Z.of_nat (length (pages pdf)) in
  let ranges := page_ranges (sections ++ [end_section (length (pages pdf))]) in
  Sorted Z.lt sections.*2 →
  sections.*2 !! 0%nat = Some first →
  partitions first total ranges ∧
  (∀ r, r ∈ ranges → r.1 < r.2) ∧
  0 ≤ first.
Proof.
  intros sections total ranges Hstrict Hfirst.
  pose proof (sort_sections_end_pages_Sorted order pdf) as Hsorted.
  fold sections in Hsorted.
  assert (∀ s, s ∈ sections → 0 ≤ s.2 < total) as Hbound.
  { intros s Hs. by apply elem_of_sort_sections, extract_outline_bound in Hs. }
  destruct (sections.*2) as [|lo l] eqn:Hpages; simplify_eq/=.
  assert ((sections ++ [end_section (length (pages pdf))]).*2
          = first :: (l ++ [total])) as Hshape.
  { by rewrite fmap_app, Hpages. }
  unfold ranges. rewrite page_ranges_zip, Hshape. rewrite Hshape in Hsorted.
  change (drop 1 (first :: (l ++ [total]))) with (l ++ [total]).
  split_and!.
  - apply neighbours_partition; [done|]. apply (last_snoc _ (first :: l)).
  - intros [a b] [i Hr]%list_elem_of_lookup_1.
    apply lookup_zip_Some in Hr as [Ha Hb].
    destruct (decide (i < length l)%nat) as [Hi|Hi].
    + rewrite lookup_app_l in Hb by done.
      rewrite app_comm_cons, lookup_app_l in Ha by (simpl; lia).
      by eapply (Sorted_lt_lookup (first :: l) i (S i)); [|lia|..].
    + assert (i = length l) as ->.
      { apply lookup_lt_Some in Hb. rewrite length_app in Hb. simpl in Hb. lia. }
      rewrite list_lookup_middle in Hb by done. simplify_eq.
      rewrite app_comm_cons, lookup_app_l in Ha by (simpl; lia).
      apply list_elem_of_lookup_2 in Ha. rewrite <- Hpages in Ha.
      apply list_elem_of_fmap in Ha as (s & -> & Hs%Hbound). simpl. lia.
  - assert (first ∈ sections.*2) as Hin by (rewrite Hpages; left).
    apply list_elem_of_fmap in Hin as (s & -> & Hs%Hbound). lia.
Qed.

Lemma ranges_partition_witness :
  partitions 1 8
    (page_ranges
       (sort_sections elements_order (_extract_outline (PdfFile three_sections))
          ++ [end_section 8])) ∧
  (∀ r, r ∈ page_ranges
              (sort_sections elements_order
                 (_extract_outline (PdfFile three_sections))
               ++ [end_section 8]) → r.1 < r.2) ∧
  0 ≤ 1.
Proof.
  apply (ranges_partition three_sections elements_order 1).
  - vm_compute. repeat constructor.
  - by vm_compute.
Defined.

(** C1, as stated, fails on [late_start]: the only section starts at page
    index 1, its page indices are strictly increasing, and page index 0 of
    the 3 pages lies in no range. *)
Lemma partition_from_zero_fails :
  let sections :=
    sort_sections elements_order (_extract_outline (PdfFile late_start)) in
  Sorted Z.lt sections.*2 ∧
  ¬ partitions 0 3 (page_ranges (sections ++ [end_section 3])).
Proof.
  split.
  - vm_compute. repeat constructor.
  - intros [Hcover _]. destruct (proj1 (Hcover 0)) as (r & Hr & Hp); [lia|].
    vm_compute in Hr. apply list_elem_of_singleton in Hr as ->. simpl in Hp. lia.
Qed.

(** ** Bookmarks on the same page *)

(** C3, as the code has it: a (title, page index) pair that the resolver
    emits, however many times, is exactly one section of the sorted
    sequence; and when no bookmark with another title resolves to that page,
    exactly one iteration of the loop starts at that page, its range ends at
    the next boundary, which is greater, and the pages it copies are not
    none. *)
Theorem same_pair_collapses (pdf : Pdf) (order : SetOrder)
    (title : str) (page : Z) :
  let resolved := _extract_outline (PdfFile pdf) in
  let sections := sort_sections order resolved in
  let with_end := sections ++ [end_section (length (pages pdf))] in
  (title, page) ∈ resolved →
  (∃ i, sections !! i = Some (title, page) ∧
        ∀ j, sections !! j = Some (title, page) → j = i) ∧
  ((∀ title', (title', page) ∈ resolved → title' = title) →
   ∃ i end_page content,
     section_bounds with_end i = Some (title, page, end_page) ∧
     (∀ j t e, section_bounds with_end j = Some (t, page, e) → j = i) ∧
     page < end_page ∧
     copy_pages (pages pdf) page end_page = Some content ∧
     content ≠ []).
Proof.
  intros resolved sections with_end Hin.
  pose proof (NoDup_sort_sections order resolved) as Hnodup.
  fold sections in Hnodup.
  assert ((title, page) ∈ sections) as [i Hi]%list_elem_of_lookup_1.
  { by apply elem_of_sort_sections. }
  assert (∀ j, sections !! j = Some (title, page) → j = i) as Huniq.
  { intros j Hj. by eapply NoDup_lookup. }
  split; [by exists i|]. intros Honly.
  pose proof (lookup_lt_Some _ _ _ Hi) as Hlen.
  destruct (lookup_lt_is_Some_2 with_end (S i)) as [[t' e] HSi].
  { unfold with_end. rewrite length_app. simpl. lia. }
  assert (section_bounds with_end i = Some (title, page, e)) as Hb.
  { apply section_bounds_Some. split.
    - unfold with_end. by rewrite lookup_app_l.
    - by rewrite list_lookup_fmap, HSi. }
  assert (page < e) as Hlt.
  { destruct (decide (S i < length sections)%nat) as [HS|HS].
    - unfold with_end in HSi. rewrite lookup_app_l in HSi by done.
      pose proof (sort_sections_pages_Sorted order resolved) as Hsorted.
      fold sections in Hsorted.
      assert (page ≤ e) as Hle.
      { eapply (Sorted_le_lookup _ i (S i)); [done|lia|..];
          rewrite list_lookup_fmap; [by rewrite Hi|by rewrite HSi]. }
      destruct (decide (e = page)) as [->|]; [|lia].
      assert (t' = title) as ->.
      { apply Honly, (elem_of_sort_sections order).
        by eapply list_elem_of_lookup_2. }
      apply Huniq in HSi. lia.
    - assert (S i = length sections) as HSeq by lia.
      unfold with_end in HSi. rewrite list_lookup_middle in HSi by done.
      unfold end_section in HSi. simplify_eq.
      apply list_elem_of_lookup_2, elem_of_sort_sections,
        extract_outline_bound in Hi. simpl in Hi. lia. }
  destruct (section_copy_is_Some pdf order i title page e Hb)
    as [content Hcontent].
  exists i, e, content. split_and!; [done| |done..|].
  - intros j t e' [Hj HSj]%section_bounds_Some.
    assert (j < length sections)%nat as Hjlen.
    { apply lookup_lt_Some in HSj. unfold with_end in HSj.
      rewrite length_fmap, length_app in HSj. simpl in HSj. lia. }
    unfold with_end in Hj. rewrite lookup_app_l in Hj by done.
    assert (t = title) as ->.
    { apply Honly, (elem_of_sort_sections order).
      by eapply list_elem_of_lookup_2. }
    by apply Huniq.
  - intros ->. apply length_mapM in Hcontent. unfold py_range in Hcontent.
    rewrite length_seqZ in Hcontent. simpl in Hcontent. lia.
Qed.

Lemma same_pair_collapses_witness :
  (∃ i, sort_sections elements_order
          (_extract_outline
             (PdfFile (book 5 [bookmark "A" 101 [bookmark "A" 101 []];
                               bookmark "B" 103 []]))) !! i
        = Some (lit "A", 1) ∧
        ∀ j, sort_sections elements_order
               (_extract_outline
                  (PdfFile (book 5 [bookmark "A" 101 [bookmark "A" 101 []];
                                    bookmark "B" 103 []]))) !! j
             = Some (lit "A", 1) → j = i) ∧
  (∃ i end_page content,
     section_bounds
       (sort_sections elements_order
          (_extract_outline
             (PdfFile (book 5 [bookmark "A" 101 [bookmark "A" 101 []];
                               bookmark "B" 103 []])))
        ++ [end_section 5]) i
     = Some (lit "A", 1, end_page) ∧
     (∀ j t e,
        section_bounds
          (sort_sections elements_order
             (_extract_outline
                (PdfFile (book 5 [bookmark "A" 101 [bookmark "A" 101 []];
                                  bookmark "B" 103 []])))
           ++ [end_section 5]) j
        = Some (t, 1, e) → j = i) ∧
     1 < end_page ∧
     copy_pages
       (pages (book 5 [bookmark "A" 101 [bookmark "A" 101 []];
                       bookmark "B" 103 []])) 1 end_page
     = Some content ∧
     content ≠ []).
Proof.
  pose proof (same_pair_collapses
    (book 5 [bookmark "A" 101 [bookmark "A" 101 []]; bookmark "B" 103 []])
    elements_order (lit "A") 1) as H.
  cbv zeta in H. destruct H as [Hone Hfile].
  { vm_compute. left. }
  split; [exact Hone|]. apply Hfile.
  intros title' Hin. vm_compute in Hin.
  repeat (apply elem_of_cons in Hin as [Heq|Hin]; [by simplify_eq|]).
  by apply elem_of_nil in Hin.
Defined.

(** C3, as stated, fails on [twins]: both bookmarks resolve to page index 5,
    two sections for that page remain, and the first of them gives a file
    without pages. *)
Lemma same_page_not_collapsed :
  let resolved := _extract_outline (PdfFile twins) in
  let sections := sort_sections elements_order resolved in
  resolved = [(lit "A", 5); (lit "B", 5)] ∧
  sections = [(lit "B", 5); (lit "A", 5)] ∧
  ¬ (∃ s, ∀ s', s' ∈ sections → s'.2 = 5 → s' = s) ∧
  written_files (split_pdf (host_with twins) elements_order quiet_splitter).1
  = [(lit "out/01_B.pdf", []); (lit "out/02_A.pdf", [105; 106; 107]%N)].
Proof.
  split_and!; [by vm_compute..| |by vm_compute].
  intros (s & Hs).
  assert ((lit "B", 5) = s) as <- by (apply Hs; [vm_compute; left|done]).
  assert ((lit "A", 5) = (lit "B", 5)) as Heq
    by (apply Hs; [vm_compute; right; left|done]).
  by vm_compute in Heq.
Qed.

(** ** Two runs on the same input *)

Section two_runs.
Context (order1 order2 : SetOrder).
Implicit Types (raw : list Sec).

Lemma sort_sections_runs_perm raw :
  sort_sections order1 raw ≡ₚ sort_sections order2 raw.
Proof. by rewrite !sort_sections_perm. Qed.

(** The page indices come in the same order in both runs. *)
Lemma sort_sections_runs_pages raw :
  (sort_sections order1 raw).*2 = (sort_sections order2 raw).*2.
Proof.
  apply (Sorted_unique Z.le).
  - eapply Sorted_fmap; [|apply sort_sections_Sorted]. done.
  - eapply Sorted_fmap; [|apply sort_sections_Sorted]. done.
  - apply fmap_Permutation, sort_sections_runs_perm.
Qed.

(** Without two sections on one page, so is the whole sequence. *)
Lemma sort_sections_runs_eq raw :
  (∀ s1 s2, s1 ∈ raw → s2 ∈ raw → s1.2 = s2.2 → s1 = s2) →
  sort_sections order1 raw = sort_sections order2 raw.
Proof.
  intros Hdistinct.
  apply (@Sorted_unique_strong _ (λ a b : Sec, a.2 ≤ b.2) (key_le_trans snd)).
  - intros s1 s2 Hs1%elem_of_sort_sections Hs2%elem_of_sort_sections ??.
    apply Hdistinct; [done..|lia].
  - apply sort_sections_Sorted.
  - apply sort_sections_Sorted.
  - apply sort_sections_runs_perm.
Qed.
End two_runs.

(** C6, as the code has it: two runs on the same input, each with its own
    iteration order for the set, reach the same sections and the same
    sequence of page indices; when no two distinct resolved sections have
    the same page index they reach the same section sequence, and then the
    same trace: the same files with the same pages.  The order of sections
    on one page follows the iteration order of the set. *)
Theorem runs_agree (host : Host) (order1 order2 : SetOrder) (self : Splitter)
    (file : File) :
  let resolved := _extract_outline file in
  fs host (input_pdf self) = Some file →
  sort_sections order1 resolved ≡ₚ sort_sections order2 resolved ∧
  (sort_sections order1 resolved).*2 = (sort_sections order2 resolved).*2 ∧
  ((∀ s1 s2, s1 ∈ resolved → s2 ∈ resolved → s1.2 = s2.2 → s1 = s2) →
   sort_sections order1 resolved = sort_sections order2 resolved ∧
   split_pdf host order1 self = split_pdf host order2 self ∧
   run host order1 self = run host order2 self).
Proof.
  intros resolved Hfs. split_and!.
  - apply sort_sections_runs_perm.
  - apply sort_sections_runs_pages.
  - intros Hdistinct.
    pose proof (sort_sections_runs_eq order1 order2 resolved Hdistinct) as Heq.
    assert (split_pdf host order1 self = split_pdf host order2 self) as Hsplit.
    { unfold split_pdf. rewrite Hfs. fold resolved. by rewrite Heq. }
    split_and!; [done..|]. unfold run. by rewrite Hsplit.
Qed.

Lemma runs_agree_witness :
  split_pdf
    (host_with (book 5 [bookmark "B" 103 []; bookmark "A" 101 []]))
    elements_order quiet_splitter
  = split_pdf
      (host_with (book 5 [bookmark "B" 103 []; bookmark "A" 101 []]))
      reverse_order quiet_splitter.
Proof.
  apply (proj2 (proj2 (runs_agree
    (host_with (book 5 [bookmark "B" 103 []; bookmark "A" 101 []]))
    elements_order reverse_order quiet_splitter
    (PdfFile (book 5 [bookmark "B" 103 []; bookmark "A" 101 []]))
    ltac:(by vm_compute)))).
  intros s1 s2 Hs1 Hs2. vm_compute in Hs1, Hs2.
  apply elem_of_cons in Hs1 as [->|Hs1%list_elem_of_singleton];
    apply elem_of_cons in Hs2 as [->|Hs2%list_elem_of_singleton];
    subst; simpl; intros ?; (done || lia).
Defined.

(** C6, as stated, fails on [twins]: with the iteration order of one run
    reversed in the other, the two sections of page index 5 come in opposite
    orders, and the two runs write different files. *)
Lemma tie_order_differs :
  sort_sections elements_order (_extract_outline (PdfFile twins))
    = [(lit "B", 5); (lit "A", 5)] ∧
  sort_sections reverse_order (_extract_outline (PdfFile twins))
    = [(lit "A", 5); (lit "B", 5)] ∧
  written_files (split_pdf (host_with twins) elements_order quiet_splitter).1
    = [(lit "out/01_B.pdf", []); (lit "out/02_A.pdf", [105; 106; 107]%N)] ∧
  written_files (split_pdf (host_with twins) reverse_order quiet_splitter).1
    = [(lit "out/01_A.pdf", []); (lit "out/02_B.pdf", [105; 106; 107]%N)] ∧
  split_pdf (host_with twins) elements_order quiet_splitter
    ≠ split_pdf (host_with twins) reverse_order quiet_splitter.
Proof.
  split_and!; [by vm_compute..|]. intros Heq. by vm_compute in Heq.
Qed.

(** * Further properties of the code *)

(** ** The walk of the outline *)

Lemma visited_unfold title destination children :
  visited (OutlineItem (Some title) destination children) =
    OutlineItem (Some title) destination children ::
    match children with
    | None => []
    | Some cs => visited_all cs
    end.
Proof.
  simpl. by f_equal.
Qed.

Lemma process_outline_None pdf_pages outline :
  process_outline pdf_pages outline = None ↔ raises outline = true.
Proof.
  destruct outline as [[title|] destination children]; [|done].
  rewrite process_outline_unfold.
  destruct destination as [[[[|page_obj items]|]|]|]; simpl; try done.
  by destruct (list_find _ _) as [[i page]|].
Qed.

Lemma process_outline_Some pdf_pages outline :
  raises outline = false →
  process_outline pdf_pages outline =
    Some (own_sections pdf_pages outline ++
          match outline with
          | OutlineItem (Some _) _ (Some cs) => process_outlines pdf_pages cs
          | _ => []
          end).
Proof.
  intros Hraises.
  destruct outline as [[title|] destination children]; [|done].
  rewrite process_outline_unfold. simpl.
  destruct (resolve_destination pdf_pages title destination) as [found|] eqn:Hd.
  - simpl. by destruct children.
  - assert (process_outline pdf_pages
              (OutlineItem (Some title) destination children) = None) as Hnone.
    { rewrite process_outline_unfold. by rewrite Hd. }
    apply process_outline_None in Hnone. congruence.
Qed.

(** What the walk returns is taken, in order, from what the visited items
    append for themselves. *)
Lemma process_outlines_sublist pdf_pages outlines :
  process_outlines pdf_pages outlines
    `sublist_of` (visited_all outlines ≫= own_sections pdf_pages).
Proof.
  assert (∀ o secs, process_outline pdf_pages o = Some secs →
            secs `sublist_of` (visited o ≫= own_sections pdf_pages)) as Hitem.
  { intros o. induction o as [title destination|title destination cs IH]
      using Outline_ind; intros secs Hsecs.
    - destruct (raises (OutlineItem title destination None)) eqn:Hr.
      { apply (process_outline_None pdf_pages) in Hr. congruence. }
      rewrite process_outline_Some in Hsecs by done. simplify_eq.
      destruct title as [title|]; [|done].
      rewrite visited_unfold, bind_cons. done.
    - destruct (raises (OutlineItem title destination (Some cs))) eqn:Hr.
      { apply (process_outline_None pdf_pages) in Hr. congruence. }
      rewrite process_outline_Some in Hsecs by done. simplify_eq.
      destruct title as [title|]; [|done].
      rewrite visited_unfold, bind_cons. apply sublist_app; [done|].
      clear Hr. induction IH as [|o cs Ho _ IHcs]; [done|].
      unfold visited_all. rewrite bind_cons, bind_app. simpl.
      destruct (process_outline pdf_pages o) as [secs|] eqn:Hsecs.
      + apply sublist_app; [by apply Ho|apply IHcs].
      + apply sublist_nil_l. }
  induction outlines as [|o outlines IH]; [done|].
  unfold visited_all. rewrite bind_cons, bind_app. simpl.
  destruct (process_outline pdf_pages o) as [secs|] eqn:Hsecs.
  - apply sublist_app; [by apply Hitem|apply IH].
  - apply sublist_nil_l.
Qed.

(** When no visited item raises, the walk returns all of it. *)
Lemma process_outlines_all pdf_pages outlines :
  (∀ o, o ∈ visited_all outlines → raises o = false) →
  process_outlines pdf_pages outlines
    = visited_all outlines ≫= own_sections pdf_pages.
Proof.
  assert (∀ o, (∀ o', o' ∈ visited o → raises o' = false) →
            process_outline pdf_pages o
            = Some (visited o ≫= own_sections pdf_pages)) as Hitem.
  { intros o. induction o as [title destination|title destination cs IH]
      using Outline_ind; intros Hquiet.
    - destruct title as [title|]; [|done].
      rewrite process_outline_Some by (apply Hquiet; rewrite visited_unfold; left).
      by rewrite visited_unfold, bind_cons.
    - destruct title as [title|]; [|done].
      rewrite process_outline_Some by (apply Hquiet; rewrite visited_unfold; left).
      rewrite visited_unfold, bind_cons. do 2 f_equal.
      assert (∀ o', o' ∈ visited_all cs → raises o' = false) as Hcs.
      { intros o' Ho'. apply Hquiet. rewrite visited_unfold. by right. }
      clear Hquiet. induction IH as [|o cs Ho _ IHcs]; [done|].
      unfold visited_all in *. rewrite bind_cons, bind_app. simpl.
      rewrite Ho.
      + f_equal. apply IHcs. intros o' Ho'. apply Hcs.
        rewrite bind_cons. apply elem_of_app. by right.
      + intros o' Ho'. apply Hcs. rewrite bind_cons. apply elem_of_app.
        by left. }
  intros Hquiet.
  induction outlines as [|o outlines IH]; [done|].
  unfold visited_all in *. rewrite bind_cons, bind_app. simpl.
  rewrite Hitem.
  - f_equal. apply IH. intros o' Ho'. apply Hquiet.
    rewrite bind_cons. apply elem_of_app. by right.
  - intros o' Ho'. apply Hquiet. rewrite bind_cons. apply elem_of_app. by left.
Qed.

Lemma own_sections_elem pdf_pages outline title page :
  (title, page) ∈ own_sections pdf_pages outline →
  ∃ children page_obj items,
    outline = OutlineItem (Some title)
                (Some (Some (DestArray (page_obj :: items)))) children ∧
    0 ≤ page ∧
    pdf_pages !! Z.to_nat page = Some page_obj ∧
    ∀ j, (j < Z.to_nat page)%nat → pdf_pages !! j ≠ Some page_obj.
Proof.
  destruct outline as [[t|] destination children]; simpl;
    [|by intros ?%elem_of_nil].
  destruct destination as [[[[|page_obj items]|]|]|]; simpl;
    try by intros ?%elem_of_nil.
  destruct (list_find _ _) as [[i obj]|] eqn:Hfind; simpl;
    [|by intros ?%elem_of_nil].
  intros [= -> ->]%list_elem_of_singleton.
  apply list_find_Some in Hfind as (Hi & -> & Hfirst).
  exists children, page_obj, items. rewrite Nat2Z.id.
  split_and!; [done|lia|done|].
  intros j Hj Hobj. by eapply Hfirst.
Qed.

Lemma own_sections_found pdf_pages title page_obj items children (i : nat) :
  pdf_pages !! i = Some page_obj →
  ∃ j : nat, (j ≤ i)%nat ∧
    pdf_pages !! j = Some page_obj ∧
    (∀ k, (k < j)%nat → pdf_pages !! k ≠ Some page_obj) ∧
    own_sections pdf_pages
      (OutlineItem (Some title) (Some (Some (DestArray (page_obj :: items))))
         children)
    = [(title, Z.of_nat j)].
Proof.
  intros Hi. simpl.
  destruct (list_find (λ page, page = page_obj) pdf_pages)
    as [[j obj]|] eqn:Hfind.
  - exists j. apply list_find_Some in Hfind as (Hj & -> & Hfirst).
    split_and!; [|done| |done].
    + destruct (decide (j ≤ i)%nat); [done|].
      exfalso. apply (Hfirst i page_obj); [done|lia|done].
    + intros k Hk Hobj. by eapply Hfirst.
  - apply list_find_None in Hfind. rewrite Forall_forall in Hfind.
    exfalso. apply (Hfind page_obj); [|done]. by eapply list_elem_of_lookup_2.
Qed.

Lemma process_outlines_raise_before pdf_pages before o after :
  raises o = true →
  process_outlines pdf_pages (before ++ o :: after)
  = process_outlines pdf_pages before.
Proof.
  intros Ho%(process_outline_None pdf_pages).
  induction before as [|o' before IH]; simpl.
  - by rewrite Ho.
  - destruct (process_outline pdf_pages o'); [by rewrite IH|done].
Qed.

(** X1: every section the resolver returns comes from a bookmark that the
    walk visits: the bookmark has the title of the section, its destination
    is an array, and the page at the index of the section is the first page
    of the document whose object is the first item of that array. *)
Theorem resolved_section_origin (pdf : Pdf) (title : str) (page : Z) :
  (title, page) ∈ _extract_outline (PdfFile pdf) →
  ∃ root children page_obj items,
    outline_root pdf = Some root ∧
    OutlineItem (Some title) (Some (Some (DestArray (page_obj :: items))))
      children ∈ visited_all root ∧
    0 ≤ page ∧
    pages pdf !! Z.to_nat page = Some page_obj ∧
    ∀ j, (j < Z.to_nat page)%nat → pages pdf !! j ≠ Some page_obj.
Proof.
  simpl. destruct (outline_root pdf) as [root|]; [|by intros ?%elem_of_nil].
  intros Hin.
  eapply elem_of_sublist in Hin; [|apply process_outlines_sublist].
  apply list_elem_of_bind in Hin as (o & Hown & Ho).
  apply own_sections_elem in Hown as (children & obj & items & -> & ? & ? & ?).
  by exists root, children, obj, items.
Qed.

Lemma resolved_section_origin_witness :
  ∃ root children page_obj items,
    outline_root (book 5 [bookmark "A" 101 [bookmark "B" 103 []]]) = Some root ∧
    OutlineItem (Some (lit "B")) (Some (Some (DestArray (page_obj :: items))))
      children ∈ visited_all root ∧
    0 ≤ 3 ∧
    pages (book 5 [bookmark "A" 101 [bookmark "B" 103 []]]) !! Z.to_nat 3
      = Some page_obj ∧
    ∀ j, (j < Z.to_nat 3)%nat →
         pages (book 5 [bookmark "A" 101 [bookmark "B" 103 []]]) !! j
         ≠ Some page_obj.
Proof.
  apply (resolved_section_origin
           (book 5 [bookmark "A" 101 [bookmark "B" 103 []]]) (lit "B") 3).
  vm_compute. right. left.
Defined.

(** X2: when no bookmark that the walk visits raises, the resolver returns
    what each visited bookmark appends for itself, parents before their
    children and siblings in their order; so every visited bookmark whose
    destination array starts with the object of a page of the document gives
    a section with its title, at the first page with that object: the index
    of the section holds the object and no earlier index does. *)
Theorem quiet_walk_complete (pdf : Pdf) (root : list Outline) :
  outline_root pdf = Some root →
  (∀ o, o ∈ visited_all root → raises o = false) →
  _extract_outline (PdfFile pdf)
    = visited_all root ≫= own_sections (pages pdf) ∧
  (∀ title page_obj items children (i : nat),
     OutlineItem (Some title) (Some (Some (DestArray (page_obj :: items))))
       children ∈ visited_all root →
     pages pdf !! i = Some page_obj →
     ∃ j : nat, (j ≤ i)%nat ∧
       pages pdf !! j = Some page_obj ∧
       (∀ k, (k < j)%nat → pages pdf !! k ≠ Some page_obj) ∧
       (title, Z.of_nat j) ∈ _extract_outline (PdfFile pdf)).
Proof.
  intros Hroot Hquiet.
  assert (_extract_outline (PdfFile pdf)
          = visited_all root ≫= own_sections (pages pdf)) as Hall.
  { simpl. rewrite Hroot. by apply process_outlines_all. }
  split; [done|]. intros title obj items children i Ho Hi.
  destruct (own_sections_found (pages pdf) title obj items children i Hi)
    as (j & Hj & Hobj & Hfirst & Hown).
  exists j. split_and!; [done..|]. rewrite Hall. apply list_elem_of_bind.
  eexists. split; [|exact Ho]. rewrite Hown. left.
Qed.

Lemma quiet_walk_complete_witness :
  _extract_outline (PdfFile (book 5 [bookmark "A" 101 [bookmark "B" 103 []];
                                     bookmark "C" 102 []]))
  = [(lit "A", 1); (lit "B", 3); (lit "C", 2)] ∧
  ∃ j : nat, (j ≤ 2)%nat ∧
    pages repeated_page !! j = Some 101%N ∧
    (∀ k, (k < j)%nat → pages repeated_page !! k ≠ Some 101%N) ∧
    (lit "A", Z.of_nat j) ∈ _extract_outline (PdfFile repeated_page).
Proof.
  split.
  - refine (eq_trans (proj1 (quiet_walk_complete
      (book 5 [bookmark "A" 101 [bookmark "B" 103 []]; bookmark "C" 102 []])
      [bookmark "A" 101 [bookmark "B" 103 []]; bookmark "C" 102 []]
      eq_refl _)) _).
    + intros o Ho. vm_compute in Ho.
      repeat (apply elem_of_cons in Ho as [->|Ho]; [done|]).
      by apply elem_of_nil in Ho.
    + by vm_compute.
  - refine (proj2 (quiet_walk_complete repeated_page [bookmark "A" 101 []]
                     eq_refl _)
              (lit "A") 101%N [0%N] (Some []) 2%nat _ _).
    + intros o Ho. vm_compute in Ho.
      repeat (apply elem_of_cons in Ho as [->|Ho]; [done|]).
      by apply elem_of_nil in Ho.
    + left.
    + done.
Defined.

(** X3: an item that raises, one with a title whose destination is not an
    array, ends the loop over its own list: the walk of that list returns
    what the items before it gave, and nothing for the item or for any item
    after it, whatever they are. *)
Theorem raising_item_ends_its_list (pdf_pages : list Obj)
    (before after : list Outline) (o : Outline) :
  raises o = true →
  process_outlines pdf_pages (before ++ o :: after)
  = process_outlines pdf_pages before.
Proof. apply process_outlines_raise_before. Qed.

Lemma raising_item_ends_its_list_witness :
  process_outlines (pages (book 5 []))
    ([bookmark "A" 101 []] ++ named_bookmark "X" :: [bookmark "B" 103 []])
  = process_outlines (pages (book 5 [])) [bookmark "A" 101 []].
Proof.
  apply (raising_item_ends_its_list (pages (book 5 []))
           [bookmark "A" 101 []] [bookmark "B" 103 []] (named_bookmark "X")).
  done.
Defined.

(** X4: a failure below an item stays below it.  For an item with a title
    that does not itself raise, the walk returns what the item appends, then
    what the walk of its children returns, then what the walk of the
    siblings after it returns: those siblings are processed even when a
    child raised. *)
Theorem failure_stays_below (pdf_pages : list Obj) (title : str)
    (destination : option (option Dest)) (children rest : list Outline) :
  raises (OutlineItem (Some title) destination (Some children)) = false →
  process_outlines pdf_pages
    (OutlineItem (Some title) destination (Some children) :: rest)
  = own_sections pdf_pages (OutlineItem (Some title) destination (Some children))
    ++ process_outlines pdf_pages children
    ++ process_outlines pdf_pages rest.
Proof.
  intros Hraises. cbn [process_outlines].
  rewrite process_outline_Some by done. by rewrite <- (assoc_L (++)).
Qed.

Lemma failure_stays_below_witness :
  process_outlines (pages (book 5 []))
    [bookmark "A" 101 [named_bookmark "X"; bookmark "B" 103 []];
     bookmark "C" 102 []]
  = [(lit "A", 1); (lit "C", 2)].
Proof.
  refine (eq_trans (failure_stays_below (pages (book 5 [])) (lit "A")
    (Some (Some (DestArray [101%N; 0%N])))
    [named_bookmark "X"; bookmark "B" 103 []] [bookmark "C" 102 []] _) _).
  - done.
  - by vm_compute.
Defined.

(** ** Filenames *)

Lemma lstrip_by_id p (s : str) c :
  head s = Some c → p c = false → lstrip_by p s = s.
Proof. destruct s as [|c' s]; [done|]. intros [= ->] Hc. simpl. by rewrite Hc. Qed.

Lemma rstrip_by_id p (s : str) c :
  last s = Some c → p c = false → rstrip_by p s = s.
Proof.
  destruct s as [|c' s _] using rev_ind; [done|].
  rewrite last_snoc. intros [= ->] Hc. by rewrite rstrip_by_snoc, Hc.
Qed.

(** X5: a title that needs no cleaning is its own filename: one that is not
    empty, has no denied character, at most 50 characters, no blank at
    either end and no full stop at the end. *)
Theorem clean_title_unchanged (title : str) (first last_char : N) :
  (∀ c, c ∈ title → c ∉ invalid_chars) →
  (length title ≤ 50)%nat →
  head title = Some first → isspace first = false →
  last title = Some last_char → isspace last_char = false → last_char ≠ dot →
  _sanitize_filename title = title.
Proof.
  intros Hvalid Hlen Hhead Hfirst Hlast Hspace Hdot.
  unfold _sanitize_filename.
  assert (filter (λ c, c ∉ invalid_chars) title = title) as ->.
  { clear -Hvalid. induction title as [|c title IH]; [done|].
    rewrite filter_cons_True by (apply Hvalid; left).
    f_equal. apply IH. intros c' Hc'. apply Hvalid. by right. }
  unfold strip. rewrite (lstrip_by_id _ _ first) by done.
  rewrite (rstrip_by_id isspace title last_char) by done.
  rewrite take_ge by done.
  rewrite (rstrip_by_id _ _ last_char); [|done|by apply bool_decide_eq_false].
  by destruct title.
Qed.

Lemma clean_title_unchanged_witness :
  _sanitize_filename (lit "Chapter 1") = lit "Chapter 1".
Proof.
  apply (clean_title_unchanged (lit "Chapter 1") 67%N 49%N).
  - apply Forall_forall. by compute_done.
  - vm_compute. lia.
  - done.
  - done.
  - done.
  - done.
  - done.
Defined.

(** X6: sanitizing only deletes.  The filename is never empty, and it is
    either the literal [section] or what is left of the title after some of
    its characters are removed, the others keeping their order. *)
Theorem sanitize_only_deletes (title : str) :
  _sanitize_filename title ≠ [] ∧
  (_sanitize_filename title = lit "section" ∨
   _sanitize_filename title `sublist_of` title).
Proof.
  rewrite sanitize_cases. case_decide as Hempty.
  - split; [done|by left].
  - split; [done|]. right.
    etrans; [apply stripped_title_sublist|apply sublist_filter].
Qed.

(** X7: the filename of line 144 gives back its two parts: two sections get
    the same filename only if they have the same index and the same
    sanitized title. *)
Theorem output_filename_parts (i j : nat) (safe_title1 safe_title2 : str) :
  output_filename i safe_title1 = output_filename j safe_title2 →
  i = j ∧ safe_title1 = safe_title2.
Proof.
  intros Heq. pose proof (output_filename_inj _ _ _ _ Heq) as ->.
  split; [done|]. unfold output_filename in Heq.
  apply app_inv_head, app_inv_head in Heq. by apply app_inv_tail in Heq.
Qed.

Lemma output_filename_parts_witness :
  2%nat = 2%nat ∧ lit "Intro" = lit "Intro".
Proof.
  apply (output_filename_parts 2 2 (lit "Intro") (lit "Intro")). done.
Defined.

(** ** Deduplication and sorting *)

Lemma insert_by_filter {A} (key : A → Z) (x : A) (l : list A) (k : Z) :
  filter (λ a, key a = k) (insert_by key x l)
  = filter (λ a, key a = k) (x :: l).
Proof.
  induction l as [|y l IH]; simpl; [done|].
  case_decide as Hle; [done|].
  rewrite filter_cons, IH, !filter_cons.
  destruct (decide (key y = k)), (decide (key x = k)); try done. lia.
Qed.

Lemma sorted_filter {A} (key : A → Z) (l : list A) (k : Z) :
  filter (λ a, key a = k) (sorted key l) = filter (λ a, key a = k) l.
Proof.
  induction l as [|x l IH]; simpl; [done|].
  by rewrite insert_by_filter, !filter_cons, IH.
Qed.

(** X8: line 118 neither loses nor invents a section and leaves no section
    twice: the sorted sequence has exactly the pairs of the resolved list,
    each once, and is no longer than that list. *)
Theorem dedup_sort_keeps_sections (order : SetOrder) (resolved : list Sec) :
  (∀ s, s ∈ sort_sections order resolved ↔ s ∈ resolved) ∧
  NoDup (sort_sections order resolved) ∧
  (length (sort_sections order resolved) ≤ length resolved)%nat.
Proof.
  split_and!.
  - intros s. apply elem_of_sort_sections.
  - apply NoDup_sort_sections.
  - apply submseteq_length, NoDup_submseteq; [apply NoDup_sort_sections|].
    intros s. apply elem_of_sort_sections.
Qed.

(** X9: the sort is stable: the sections of one page keep, among
    themselves, the order in which the set gave them. *)
Theorem ties_keep_iteration_order (order : SetOrder) (resolved : list Sec)
    (page : Z) :
  filter (λ s : Sec, s.2 = page) (sort_sections order resolved)
  = filter (λ s : Sec, s.2 = page) (set_iter order (list_to_set resolved)).
Proof. apply sorted_filter. Qed.

(** ** The pages of a file *)

Lemma mapM_getitem_seqZ (reader_pages : list Obj) (n : nat) (start_page : Z) :
  0 ≤ start_page →
  start_page + Z.of_nat n ≤ Z.of_nat (length reader_pages) →
  mapM (py_getitem reader_pages) (seqZ start_page (Z.of_nat n))
  = Some (take n (drop (Z.to_nat start_page) reader_pages)).
Proof.
  revert start_page. induction n as [|n IH]; intros s Hs Hlen; [done|].
  rewrite seqZ_cons by lia.
  replace (Z.pred (Z.of_nat (S n))) with (Z.of_nat n) by lia.
  destruct (lookup_lt_is_Some_2 reader_pages (Z.to_nat s)) as [x Hx]; [lia|].
  cbn [mapM]. rewrite py_getitem_in_range, Hx by lia. simpl.
  rewrite IH by lia. simpl.
  replace (Z.to_nat (Z.succ s)) with (S (Z.to_nat s)) by lia.
  by rewrite (drop_S _ _ _ Hx).
Qed.

Lemma copy_pages_slice (reader_pages : list Obj) (start_page end_page : Z) :
  0 ≤ start_page → end_page ≤ Z.of_nat (length reader_pages) →
  copy_pages reader_pages start_page end_page
  = Some (page_slice reader_pages start_page end_page).
Proof.
  intros Hs He. unfold copy_pages, py_range, page_slice.
  destruct (decide (end_page ≤ start_page)) as [Hle|Hlt].
  - rewrite seqZ_nil by lia.
    by replace (Z.to_nat (end_page - start_page)) with 0%nat by lia.
  - rewrite <- (Z2Nat.id (end_page - start_page)) at 1 by lia.
    apply mapM_getitem_seqZ; lia.
Qed.

Lemma py_getitem_past_end {A} (l : list A) (i : Z) :
  Z.of_nat (length l) ≤ i → py_getitem l i = None.
Proof.
  intros Hi. unfold py_getitem. rewrite decide_True by lia.
  apply lookup_ge_None. lia.
Qed.

Lemma copy_pages_out_of_range (reader_pages : list Obj)
    (start_page end_page : Z) :
  0 ≤ start_page < end_page → Z.of_nat (length reader_pages) < end_page →
  copy_pages reader_pages start_page end_page = None.
Proof.
  intros Hs He. apply eq_None_not_Some. intros Hsome%mapM_is_Some_1.
  rewrite Forall_forall in Hsome.
  destruct (Hsome (Z.max start_page (Z.of_nat (length reader_pages))))
    as [x Hx].
  { apply elem_of_py_range. lia. }
  simpl in Hx. rewrite py_getitem_past_end in Hx; [done|lia].
Qed.

(** X10: the copy loop of lines 139-140.  For bounds within the document it
    collects the pages from the start index up to the end index, the end
    excluded, in their order: none when the end is not after the start.
    When the range is not empty and ends after the last page, a lookup
    raises and nothing is collected. *)
Theorem copy_pages_spec (reader_pages : list Obj) (start_page end_page : Z) :
  0 ≤ start_page →
  (end_page ≤ Z.of_nat (length reader_pages) →
   copy_pages reader_pages start_page end_page
   = Some (take (Z.to_nat (end_page - start_page))
             (drop (Z.to_nat start_page) reader_pages))) ∧
  (start_page < end_page → Z.of_nat (length reader_pages) < end_page →
   copy_pages reader_pages start_page end_page = None).
Proof.
  intros Hs. split.
  - intros He. by apply copy_pages_slice.
  - intros Hlt He. by apply copy_pages_out_of_range.
Qed.

Lemma copy_pages_spec_witness :
  copy_pages [100; 101; 102; 103; 104]%N 1 3 = Some [101; 102]%N ∧
  copy_pages [100; 101; 102; 103; 104]%N 3 6 = None.
Proof.
  split.
  - apply (proj1 (copy_pages_spec [100; 101; 102; 103; 104]%N 1 3
                    ltac:(lia))).
    simpl. lia.
  - apply (proj2 (copy_pages_spec [100; 101; 102; 103; 104]%N 3 6
                    ltac:(lia))); simpl; lia.
Defined.

(** ** What a run writes, file by file *)

Section written_one_by_one.
Context (host : Host) (self : Splitter) (reader_pages : list Obj).
Implicit Types (sections : list Sec).

Lemma elem_of_written_split_loop sections path content :
  (path, content) ∈ written_files (split_loop host self reader_pages sections) ↔
  ∃ i title start_page end_page,
    section_bounds sections i = Some (title, start_page, end_page) ∧
    copy_pages reader_pages start_page end_page = Some content ∧
    open_wb_ok host (output_path host self i title) = true ∧
    path = output_path host self i title.
Proof.
  unfold written_files, split_loop. rewrite list_elem_of_omap. split.
  - intros (ev & (i & Hev & Hi)%list_elem_of_bind & Hw).
    destruct (split_section host self reader_pages sections i)
      as [trace|] eqn:Htrace; [|by apply elem_of_nil in Hev].
    apply split_section_Some in Htrace
      as (title & s & e & c & Hb & Hc & Hopen & ->).
    simpl in Hev. rewrite !elem_of_cons, elem_of_nil in Hev.
    destruct Hev as [->|[->|[]]]; simplify_eq/=.
    by exists i, title, s, e.
  - intros (i & title & s & e & Hb & Hc & Hopen & ->).
    exists (WriteFile (output_path host self i title) content). split; [|done].
    apply list_elem_of_bind. exists i. split.
    + assert (split_section host self reader_pages sections i
              = Some [WriteFile (output_path host self i title) content;
                      PrintLine (created_line (output_path host self i title)
                                   s e)]) as ->.
      { apply split_section_Some. by eexists _, _, _, _. }
      left.
    + apply section_bounds_Some in Hb as [_ HSi].
      apply lookup_lt_Some in HSi. rewrite length_fmap in HSi.
      apply elem_of_seq. lia.
Qed.

(** When every write succeeds, the contents of the files are, in order, the
    slices of the page ranges. *)
Lemma split_loop_contents sections :
  (∀ path, open_wb_ok host path = true) →
  (∀ i title start_page end_page,
     section_bounds sections i = Some (title, start_page, end_page) →
     0 ≤ start_page ∧ end_page ≤ Z.of_nat (length reader_pages)) →
  (written_files (split_loop host self reader_pages sections)).*2
  = (λ r, page_slice reader_pages r.1 r.2) <$> page_ranges sections.
Proof.
  intros Hopen Hbounds. unfold split_loop, page_ranges.
  induction (seq 0 (length sections - 1)) as [|i l IH]; [done|].
  rewrite !bind_cons, written_files_app, !fmap_app, IH. f_equal.
  destruct (section_bounds sections i) as [[[title s] e]|] eqn:Hb.
  - destruct (Hbounds _ _ _ _ Hb) as [Hs He].
    assert (split_section host self reader_pages sections i
            = Some [WriteFile (output_path host self i title)
                      (page_slice reader_pages s e);
                    PrintLine (created_line (output_path host self i title)
                                 s e)]) as ->.
    { apply split_section_Some. eexists _, _, _, _.
      split_and!; [done|by apply copy_pages_slice|done..]. }
    done.
  - unfold split_section. by rewrite Hb.
Qed.

Lemma split_loop_no_Makedirs sections dir :
  Makedirs dir ∉ split_loop host self reader_pages sections.
Proof.
  unfold split_loop. intros (i & Hev & _)%list_elem_of_bind.
  destruct (split_section host self reader_pages sections i)
    as [trace|] eqn:Htrace; [|by apply elem_of_nil in Hev].
  apply split_section_Some in Htrace as (? & ? & ? & ? & _ & _ & _ & ->).
  simpl in Hev. rewrite !elem_of_cons, elem_of_nil in Hev. naive_solver.
Qed.

End written_one_by_one.

(** Consecutive slices join. *)
Lemma page_slice_app (reader_pages : list Obj) (a b c : Z) :
  0 ≤ a → a ≤ b → b ≤ c →
  page_slice reader_pages a b ++ page_slice reader_pages b c
  = page_slice reader_pages a c.
Proof.
  intros Ha Hab Hbc. unfold page_slice.
  replace (Z.to_nat b) with (Z.to_nat a + Z.to_nat (b - a))%nat by lia.
  rewrite <- drop_drop, take_take_drop. f_equal. lia.
Qed.

Lemma page_slices_concat (reader_pages : list Obj) (a : Z) (l : list Z) :
  Sorted Z.le (a :: l) → 0 ≤ a →
  concat ((λ r, page_slice reader_pages r.1 r.2) <$> zip (a :: l) l)
  = page_slice reader_pages a (default a (last l)) ∧
  a ≤ default a (last l).
Proof.
  revert a. induction l as [|b l IH]; intros a Hsorted Ha.
  { split; [|simpl; lia]. unfold page_slice. simpl.
    by rewrite Z.sub_diag. }
  apply Sorted_inv in Hsorted as [Hsorted Hab%HdRel_inv].
  destruct (IH b Hsorted ltac:(lia)) as [Hconcat Hle].
  assert (default a (last (b :: l)) = default b (last l)) as ->.
  { rewrite last_cons. by destruct (last l). }
  split; [|lia].
  change (zip (a :: b :: l) (b :: l)) with ((a, b) :: zip (b :: l) l).
  rewrite fmap_cons. cbn [concat]. rewrite Hconcat.
  by apply page_slice_app.
Qed.



(** X12: when every write succeeds, the files of a run, read one after the
    other in the order of their ordinals, give every page of the document
    from the page of the first section on, once and in order: no page after
    it is lost or written twice, also when sections share a page. *)
Theorem files_hold_all_pages (host : Host) (order : SetOrder) (self : Splitter)
    (pdf : Pdf) (first : Z) :
  fs host (input_pdf self) = Some (PdfFile pdf) →
  (sort_sections order (_extract_outline (PdfFile pdf))).*2 !! 0%nat
    = Some first →
  (∀ path, open_wb_ok host path = true) →
  concat (written_files (split_pdf host order self).1).*2
  = drop (Z.to_nat first) (pages pdf).
Proof.
  intros Hfs Hfirst Hopen.
  assert (_extract_outline (PdfFile pdf) ≠ []) as Hne.
  { intros Hnil. by rewrite Hnil, sort_sections_nil in Hfirst. }
  rewrite (split_pdf_splits _ _ _ pdf) by done. cbn [fst].
  change (written_files (Makedirs ?d :: ?t)) with (written_files t).
  rewrite split_loop_contents;
    [|done|intros i t s e Hb; by eapply section_bounds_in_document].
  rewrite page_ranges_zip.
  pose proof (sort_sections_end_pages_Sorted order pdf) as Hsorted.
  set (sections := sort_sections order _) in *.
  destruct (sections.*2) as [|lo l] eqn:Hpages; simplify_eq/=.
  assert ((sections ++ [end_section (length (pages pdf))]).*2
          = first :: (l ++ [Z.of_nat (length (pages pdf))])) as Hshape.
  { by rewrite fmap_app, Hpages. }
  rewrite Hshape in *.
  change (drop 1 (first :: ?k)) with k.
  assert (0 ≤ first) as H0.
  { assert (first ∈ sections.*2) as Hin by (rewrite Hpages; left).
    apply list_elem_of_fmap in Hin as (s & -> & Hs).
    apply elem_of_sort_sections, extract_outline_bound in Hs. lia. }
  destruct (page_slices_concat (pages pdf) first _ Hsorted H0) as [-> Hle].
  rewrite last_snoc in *. simpl in *. unfold page_slice.
  apply take_ge. rewrite length_drop. lia.
Qed.

Lemma files_hold_all_pages_witness :
  concat (written_files (split_pdf (host_with twins) elements_order
                           quiet_splitter).1).*2
  = drop (Z.to_nat 5) (pages twins).
Proof.
  apply (files_hold_all_pages (host_with twins) elements_order quiet_splitter
           twins 5).
  - by vm_compute.
  - by vm_compute.
  - done.
Defined.

(** X13: the ranges of the loop, for every document with a resolved section
    and also when sections share a page: they partition the page indices
    from that of the first section up to the page count, each range lies
    within the document with its start not after its end, and each range
    ends where the next one starts. *)
Theorem ranges_are_contiguous (pdf : Pdf) (order : SetOrder) (first : Z) :
  let sections := sort_sections order (_extract_outline (PdfFile pdf)) in
  let total := Z.of_nat (length (pages pdf)) in
  let ranges := page_ranges (sections ++ [end_section (length (pages pdf))]) in
  sections.*2 !! 0%nat = Some first →
  partitions first total ranges ∧
  (∀ r, r ∈ ranges → 0 ≤ r.1 ∧ r.1 ≤ r.2 ∧ r.2 ≤ total) ∧
  (∀ i r r', ranges !! i = Some r → ranges !! S i = Some r' → r.2 = r'.1).
Proof.
  intros sections total ranges Hfirst.
  pose proof (sort_sections_end_pages_Sorted order pdf) as Hsorted.
  fold sections in Hsorted.
  split_and!.
  - destruct (sections.*2) as [|lo l] eqn:Hpages; simplify_eq/=.
    assert ((sections ++ [end_section (length (pages pdf))]).*2
            = first :: (l ++ [total])) as Hshape.
    { by rewrite fmap_app, Hpages. }
    unfold ranges. rewrite page_ranges_zip, Hshape. rewrite Hshape in Hsorted.
    change (drop 1 (first :: (l ++ [total]))) with (l ++ [total]).
    apply neighbours_partition; [done|]. apply (last_snoc _ (first :: l)).
  - intros [a b] [i Hr]%list_elem_of_lookup_1.
    apply page_ranges_lookup in Hr as [Ha Hb]. simpl.
    pose proof (Sorted_le_lookup _ i (S i) a b Hsorted ltac:(lia) Ha Hb).
    apply list_lookup_fmap_Some in Ha as ([ta a'] & -> & Ha).
    apply list_lookup_fmap_Some in Hb as ([tb b'] & -> & Hb).
    assert (section_bounds (sections ++ [end_section (length (pages pdf))]) i
            = Some (ta, a', b')) as Hbounds.
    { apply section_bounds_Some. split; [done|].
      by rewrite list_lookup_fmap, Hb. }
    apply section_bounds_in_document in Hbounds. simpl in *. lia.
  - intros i [a b] [a' b'] [_ Hb]%page_ranges_lookup [Ha' _]%page_ranges_lookup.
    simpl. congruence.
Qed.

Lemma ranges_are_contiguous_witness :
  partitions 5 8
    (page_ranges
       (sort_sections elements_order (_extract_outline (PdfFile twins))
          ++ [end_section 8])).
Proof.
  apply (ranges_are_contiguous twins elements_order 5). by vm_compute.
Defined.

(** ** The run as a whole *)

(** X14: when the input exists, the first thing a run does is create the
    output directory, which it does once, and every file it writes afterwards
    is in that directory, named by an index, an underscore, the sanitized
    title of a resolved section and the extension. *)
Theorem output_dir_first (host : Host) (order : SetOrder) (self : Splitter)
    (file : File) :
  fs host (input_pdf self) = Some file →
  ∃ rest,
    (split_pdf host order self).1 = Makedirs (output_dir self) :: rest ∧
    (∀ dir, Makedirs dir ∉ rest) ∧
    (∀ path content, (path, content) ∈ written_files rest →
       ∃ (i : nat) title page,
         (title, page) ∈ _extract_outline file ∧
         path = path_join host (output_dir self)
                  (zfill 2 (str_of_int (Z.of_nat i + 1)) ++ lit "_"
                   ++ _sanitize_filename title ++ lit ".pdf")).
Proof.
  intros Hfs. unfold split_pdf. rewrite Hfs.
  destruct (_extract_outline file) as [|s0 resolved] eqn:Hres.
  { eexists. split; [done|]. split.
    - intros dir Hin. apply list_elem_of_singleton in Hin. done.
    - intros path content Hin. by apply elem_of_nil in Hin. }
  destruct file as [pdf|why]; [|done].
  eexists. split; [done|]. split; [apply split_loop_no_Makedirs|].
  intros path content
    (i & title & s & e & Hb & _ & _ & ->)%elem_of_written_split_loop.
  apply section_bounds_Some in Hb as [Hi HSi].
  exists i, title, s. split; [|done].
  rewrite <- Hres. apply (elem_of_sort_sections order).
  apply lookup_lt_Some in HSi. rewrite length_fmap, length_app in HSi.
  simpl in HSi. rewrite lookup_app_l in Hi by lia.
  rewrite Hres. by eapply list_elem_of_lookup_2.
Qed.

Lemma output_dir_first_witness :
  ∃ rest,
    (split_pdf (host_with twins) elements_order quiet_splitter).1
      = Makedirs (lit "out") :: rest ∧
    (∀ dir, Makedirs dir ∉ rest) ∧
    (∀ path content, (path, content) ∈ written_files rest →
       ∃ (i : nat) title page,
         (title, page) ∈ _extract_outline (PdfFile twins) ∧
         path = lit "out" ++ lit "/"
                ++ (zfill 2 (str_of_int (Z.of_nat i + 1)) ++ lit "_"
                    ++ _sanitize_filename title ++ lit ".pdf")).
Proof.
  apply (output_dir_first (host_with twins) elements_order quiet_splitter
           (PdfFile twins)).
  by vm_compute.
Defined.

(** X15: a document from which no section is resolved, because it cannot be
    opened, has no outline, or none of its bookmarks gives a page: the run
    creates the output directory, writes no file, says that it cannot
    split, raises nothing, and the caller still prints its line of
    success. *)
Theorem no_sections_no_files (host : Host) (order : SetOrder) (self : Splitter)
    (file : File) :
  fs host (input_pdf self) = Some file →
  _extract_outline file = [] →
  split_pdf host order self
  = ([Makedirs (output_dir self);
      PrintLine (lit "No valid outline found in PDF. Cannot split.")], None) ∧
  run host order self
  = [Makedirs (output_dir self);
     PrintLine (lit "No valid outline found in PDF. Cannot split.");
     PrintLine (lit "Successfully split PDF into sections in: "
                ++ output_dir self)] ∧
  written_files (run host order self) = [].
Proof.
  intros Hfs Hnil.
  assert (split_pdf host order self
    = ([Makedirs (output_dir self);
        PrintLine (lit "No valid outline found in PDF. Cannot split.")], None))
    as Hsplit.
  { unfold split_pdf. by rewrite Hfs, Hnil. }
  split; [done|]. unfold run. by rewrite Hsplit.
Qed.

Lemma no_sections_no_files_witness :
  run (host_with (book 3 [named_bookmark "A"; bookmark "B" 101 []]))
    elements_order quiet_splitter
  = [Makedirs (lit "out");
     PrintLine (lit "No valid outline found in PDF. Cannot split.");
     PrintLine (lit "Successfully split PDF into sections in: " ++ lit "out")].
Proof.
  apply (no_sections_no_files
           (host_with (book 3 [named_bookmark "A"; bookmark "B" 101 []]))
           elements_order quiet_splitter
           (PdfFile (book 3 [named_bookmark "A"; bookmark "B" 101 []]))).
  - by vm_compute.
  - by vm_compute.
Defined.


